(** * ImagenetPytorchHorovod: a shallow embedding of the training script

    Source: [HorovodPytorch/src/execution/ImagenetPytorchHorovod.py].

    The script is embedded as Rocq functions.  Python exceptions become an
    error type [exn] carried by [result]; the statements of [main] and
    [train] run in a small state-and-error monad [M] whose state is the
    process state (the trace of observable events and the default torch
    generator).  Everything the script only reads (environment variables,
    the file system, the Horovod communicator, the image decoder) is a field
    of the record [World]. *)

From Stdlib Require Import List Arith ZArith Lia Bool String Ascii Permutation.
From Stdlib Require QArith.
Import ListNotations.
Local Open Scope string_scope.
Local Open Scope list_scope.
Local Open Scope nat_scope.

(* ================================================================== *)
(** ** Python values, exceptions and results *)

Inductive exn : Type :=
| NameError (name : string)
| TypeError (what : string)
| ValueError (what : string)
| AttributeError (attr : string)
| KeyError (key : string)
| IndexError
| IOError (file : string)
| DecodeError (file : string)
| InitError
| CollectiveError
| RuntimeError (what : string).

Inductive result (A : Type) : Type :=
| Ok (a : A)
| Err (e : exn).
Arguments Ok {A} a.
Arguments Err {A} e.

Definition rbind {A B} (r : result A) (k : A -> result B) : result B :=
  match r with
  | Ok a => k a
  | Err e => Err e
  end.

Definition is_ok {A} (r : result A) : bool :=
  match r with Ok _ => true | Err _ => false end.

(** [seq[idx]] for a non-negative index. *)
Definition getitem {A} (l : list A) (idx : nat) : result A :=
  match nth_error l idx with
  | Some a => Ok a
  | None => Err IndexError
  end.

(* ================================================================== *)
(** ** Strings: [str.lower], [in], [os.path.join] *)

Definition is_upper (c : ascii) : bool :=
  let n := nat_of_ascii c in (65 <=? n) && (n <=? 90).

(** [str.lower] on one character; characters outside [A-Z] are kept. *)
Definition lower_char (c : ascii) : ascii :=
  if is_upper c then ascii_of_nat (nat_of_ascii c + 32) else c.

Fixpoint lower (s : string) : string :=
  match s with
  | EmptyString => EmptyString
  | String c s' => String (lower_char c) (lower s')
  end.

(** [sub in s]: substring test. *)
Fixpoint str_in (sub s : string) : bool :=
  prefix sub s ||
  match s with
  | EmptyString => false
  | String _ s' => str_in sub s'
  end.

Definition startswith (p s : string) : bool := prefix p s.

Fixpoint endswith_char (c : ascii) (s : string) : bool :=
  match s with
  | EmptyString => false
  | String d EmptyString => Ascii.eqb c d
  | String _ s' => endswith_char c s'
  end.

(** [posixpath.join(a, b)]. *)
Definition path_join (a b : string) : string :=
  if startswith "/" b then b
  else if (a =? "")%string || endswith_char "/" a then (a ++ b)%string
  else (a ++ "/" ++ b)%string.

(** [path.join] raises [TypeError] on [None], which is what [os.getenv]
    returns for an unset variable. *)
Definition path_join_opt (a : option string) (b : string) : result string :=
  match a with
  | Some a => Ok (path_join a b)
  | None => Err (TypeError "expected str, bytes or os.PathLike object, not NoneType")
  end.

(* ================================================================== *)
(** ** Module constants and the DISTRIBUTED flag *)

Definition _WIDTH : nat := 224.
Definition _HEIGHT : nat := 224.
Definition _CHANNELS : nat := 3.
Definition _EPOCHS : nat := 1.
Definition _BATCHSIZE : nat := 64.
Definition _SEED : nat := 42.
Definition _WARMUP_EPOCHS : nat := 5.

Definition _str_to_bool (in_str : string) : bool :=
  if str_in "t" (lower in_str) then true else false.

Definition getenv_default (getenv : string -> option string)
    (key default : string) : string :=
  match getenv key with
  | Some v => v
  | None => default
  end.

(* ================================================================== *)
(** ** The world the script runs in *)

(** Decoded pixel data and the tensors the transform pipeline produces. *)
Definition image : Type := list Z.
Definition tensor : Type := list Z.

(** What [__getitem__] hands back as its first component: the transformed
    tensor, or the RGB image itself when no transform is configured. *)
Inductive sample : Type :=
| PILImage (im : image)
| TensorOf (t : tensor).

(** A manifest as [pd.read_csv] returns it: the two columns the script
    uses, each possibly absent from the file. *)
Record DataFrame : Type := mkDataFrame {
  df_filenames : option (list string);
  df_num_id : option (list Z)
}.

Record World : Type := mkWorld {
  getenv : string -> option string;
  read_csv : string -> result DataFrame;
  open_rb : string -> result (list Z);
  Image_open : list Z -> result image;
  convert_RGB : image -> result image;
  train_transform : image -> result tensor;
  (** [torch.randperm(n, generator=g)] for a generator [g] in the state
      that seeding it with [seed] puts it in. *)
  randperm : nat -> nat -> list nat;
  hvd_init : result unit;
  hvd_size : nat;
  hvd_rank : nat;
  hvd_local_rank : nat;
  hvd_broadcast : result unit;
  (** outcome of the collective inside the [i]-th step of an epoch *)
  hvd_allreduce : nat -> nat -> result unit;
  (** the sentence pandas puts into the [KeyError] for a missing column;
      its wording differs between pandas versions *)
  keyerror_text : string -> string;
  (** the exception [default_collate] raises for samples it cannot stack *)
  collate_error : list (sample * Z) -> exn;
  (** [data.cuda(), target.cuda()] on a batch *)
  to_cuda : list (sample * Z) -> result unit;
  (** [model(data)], [F.cross_entropy(output, target)] and
      [loss.backward()] in the [i]-th step of an epoch *)
  model_forward : nat -> nat -> list (sample * Z) -> result unit;
  cross_entropy : nat -> nat -> list (sample * Z) -> result unit;
  loss_backward : nat -> nat -> result unit;
  (** [loss.data[0]], evaluated for the progress line *)
  loss_item : nat -> nat -> result unit;
  (** the state a generator has when [torch.Generator()] creates it, which
      may depend on the process, here through its default generator *)
  fresh_generator : option nat -> nat
}.

Definition _DISTRIBUTED (w : World) : bool :=
  _str_to_bool (getenv_default (getenv w) "DISTRIBUTED" "False").

(* ================================================================== *)
(** ** Process state and the monad of statements *)

Inductive event : Type :=
| Log (msg : string)
| LogLoaded (n_labels n_images : nat)
| LogTrain (epoch total_samples : nat)
| HvdInit
| ManualSeed (seed : nat)
| CudaSetDevice (local_rank : nat)
| CudaManualSeed (seed : nat)
| ModelCuda
| BroadcastParameters (root_rank : nat)
| ModelTrain
| SetEpoch (epoch : nat)
| ZeroGrad
| Forward (batch : list (sample * Z))
| Backward
| OptimizerStep.

Record proc : Type := mkProc {
  trace : list event;
  (** seed of the default torch generator; [None] while it still holds
      the entropy the process started with *)
  default_generator : option nat
}.

Definition M (A : Type) : Type := proc -> result A * proc.

Definition ret {A} (a : A) : M A := fun st => (Ok a, st).

Definition bind {A B} (m : M A) (k : A -> M B) : M B :=
  fun st =>
    match m st with
    | (Ok a, st') => k a st'
    | (Err e, st') => (Err e, st')
    end.

Definition raise {A} (e : exn) : M A := fun st => (Err e, st).

Definition lift {A} (r : result A) : M A := fun st => (r, st).

Definition emit (e : event) : M unit :=
  fun st => (Ok tt, mkProc (trace st ++ [e]) (default_generator st)).

Definition manual_seed (seed : nat) : M unit :=
  fun st => (Ok tt, mkProc (trace st ++ [ManualSeed seed]) (Some seed)).

Declare Scope py_scope.
Delimit Scope py_scope with py.
Notation "x <- m ;; k" := (bind m (fun x => k))
  (at level 61, m at next level, right associativity) : py_scope.
Notation "m ;; k" := (bind m (fun _ => k))
  (at level 61, right associativity) : py_scope.
Notation "' pat <- m ;; k" := (bind m (fun x => match x with pat => k end))
  (at level 61, pat pattern, m at next level, right associativity) : py_scope.
Local Open Scope py_scope.

Definition initial_proc : proc := mkProc [] None.

Fixpoint mapM {A B} (f : A -> M B) (l : list A) : M (list B) :=
  match l with
  | [] => ret []
  | a :: l' => b <- f a ;; bs <- mapM f l' ;; ret (b :: bs)
  end.

(** The name [hvd] is bound only when the module was imported, that is
    when [_DISTRIBUTED] held at import time. *)
Definition hvd (w : World) : M World :=
  if _DISTRIBUTED w then ret w else raise (NameError "hvd").

Definition is_hvd_init (e : event) : bool :=
  match e with HvdInit => true | _ => false end.

(** Horovod is initialised once [hvd.init()] has been called and has
    returned. *)
Definition hvd_initialized (h : World) (st : proc) : bool :=
  existsb is_hvd_init (trace st) && is_ok (hvd_init h).

(** The accessors of the communicator raise [ValueError] until Horovod is
    initialised. *)
Definition hvd_call {A} (h : World) (value : A) : M A :=
  fun st =>
    if hvd_initialized h st then (Ok value, st)
    else (Err (ValueError "Horovod has not been initialized; use hvd.init()."),
          st).

(** [hvd.size()], [hvd.rank()], [hvd.local_rank()] *)
Definition hvd__size (h : World) : M nat := hvd_call h (hvd_size h).
Definition hvd__rank (h : World) : M nat := hvd_call h (hvd_rank h).
Definition hvd__local_rank (h : World) : M nat :=
  hvd_call h (hvd_local_rank h).

(* ================================================================== *)
(** ** Sample index: manifests *)

Definition _append_path_to (data_path : string) (data_series : list string)
    : list string :=
  map (fun x => path_join data_path x) data_series.

(** [df.filenames]: attribute access on a column. *)
Definition col_filenames (df : DataFrame) : result (list string) :=
  match df_filenames df with
  | Some c => Ok c
  | None => Err (AttributeError "filenames")
  end.

(** [df[['num_id']]]; for a missing column pandas raises [KeyError] with
    a sentence of its own about the column. *)
Definition col_num_id (w : World) (df : DataFrame) : result (list Z) :=
  match df_num_id df with
  | Some c => Ok c
  | None => Err (KeyError (keyerror_text w "num_id"))
  end.

(** [df.assign(filenames=...)] *)
Definition assign_filenames (df : DataFrame) (c : list string) : DataFrame :=
  mkDataFrame (Some c) (df_num_id df).

Definition load_split (w : World) (data_dir : option string)
    (csv subdir : string) : result DataFrame :=
  rbind (path_join_opt data_dir csv) (fun manifest =>
  rbind (read_csv w manifest) (fun train_df =>
  rbind (path_join_opt data_dir subdir) (fun root =>
  rbind (col_filenames train_df) (fun names =>
  Ok (assign_filenames train_df (_append_path_to root names)))))).

Definition _load_training (w : World) (data_dir : option string)
    : result DataFrame :=
  load_split w data_dir "train.csv" "train".

Definition _load_validation (w : World) (data_dir : option string)
    : result DataFrame :=
  load_split w data_dir "validation.csv" "validation".

(** 64-bit two's complement, the dtype of an integer column. *)
Definition wrap64 (z : Z) : Z :=
  ((z + 2 ^ 63) mod 2 ^ 64 - 2 ^ 63)%Z.

(** [labels -= 1] on an int64 array. *)
Definition minus_one (labels : list Z) : list Z :=
  map (fun k => wrap64 (k - 1)) labels.

Definition _create_data_fn (w : World) (train_path test_path : option string)
    : M (list string * list Z * list string * list Z) :=
  emit (Log "Reading training data info") ;;
  train_df <- lift (_load_training w train_path) ;;
  emit (Log "Reading validation data info") ;;
  validation_df <- lift (_load_validation w test_path) ;;
  train_X <- lift (col_filenames train_df) ;;
  validation_X <- lift (col_filenames validation_df) ;;
  train_labels <- lift (col_num_id w train_df) ;;
  validation_labels <- lift (col_num_id w validation_df) ;;
  ret (train_X, minus_one train_labels,
       validation_X, minus_one validation_labels).

(* ================================================================== *)
(** ** Dataset adapter *)

Record ImageNet : Type := mkImageNet {
  img_locs : list string;
  labels : list Z;
  transform : option (image -> result tensor)
}.

Definition ImageNet__init__ (img_locs : list string) (img_labels : list Z)
    (transform : option (image -> result tensor)) : M ImageNet :=
  emit (LogLoaded (List.length img_labels) (List.length img_locs)) ;;
  ret (mkImageNet img_locs img_labels transform).

Definition __getitem__ (w : World) (self : ImageNet) (idx : nat)
    : result (sample * Z) :=
  rbind (getitem (img_locs self) idx) (fun im_file =>
  rbind (getitem (labels self) idx) (fun label =>
  rbind (open_rb w im_file) (fun f =>
  rbind (Image_open w f) (fun im_rgb =>
  rbind (convert_RGB w im_rgb) (fun im_rgb =>
  match transform self with
  | Some tf => rbind (tf im_rgb) (fun t => Ok (TensorOf t, label))
  | None => Ok (PILImage im_rgb, label)
  end))))).

Definition __len__ (self : ImageNet) : nat := List.length (img_locs self).

Definition _is_master (w : World) (is_distributed : bool) : M bool :=
  if is_distributed then
    h <- hvd w ;;
    r <- hvd__rank h ;;
    if r =? 0 then ret true else ret false
  else ret true.

(* ================================================================== *)
(** ** Distributed sampler *)

(** [seq[a:b]] for [0 <= a <= b]: Python clips both ends to the list. *)
Definition slice {A} (a b : nat) (l : list A) : list A :=
  firstn (b - a) (skipn a l).

(** Modelled from the spec: the state of
    [torch.utils.data.distributed.DistributedSampler], which is library
    code; the script only constructs it and calls [set_epoch].  The sampler
    depends on the Sample Index through its size only. *)
Record DistributedSampler : Type := mkSampler {
  dataset_len : nat;
  num_replicas : nat;
  rank : nat;
  epoch : nat
}.

(** Modelled from the spec: the constructor call of lines 168-169; the
    epoch cursor starts at 0. *)
Definition DistributedSampler__init__ (dataset_len num_replicas rank : nat)
    : DistributedSampler :=
  mkSampler dataset_len num_replicas rank 0.

(** Modelled from the spec: [set_epoch] of the library sampler moves the
    epoch cursor and nothing else. *)
Definition set_epoch (s : DistributedSampler) (epoch : nat)
    : DistributedSampler :=
  mkSampler (dataset_len s) (num_replicas s) (rank s) epoch.

(** Modelled from the spec: [ceil(n / w)], the shard length of the
    library sampler. *)
Definition ceil_div (n w : nat) : nat :=
  n / w + (if n mod w =? 0 then 0 else 1).

(** Modelled from the spec: the shard length of the library sampler,
    [ceil(total_samples / world_size)]. *)
Definition num_samples (s : DistributedSampler) : nat :=
  ceil_div (dataset_len s) (num_replicas s).

(** Modelled from the spec: the padded length of the library sampler,
    divisible by [world_size]. *)
Definition total_size (s : DistributedSampler) : nat :=
  num_samples s * num_replicas s.

(** Modelled from the spec: the wrap-around prefix the library sampler
    pads with, the first [k] entries of [l] read cyclically.  For
    [k <= length l] this is [firstn k l]. *)
Definition wrap_prefix (l : list nat) (k : nat) : list nat :=
  map (fun i => nth (i mod List.length l) l 0) (seq 0 k).

(** Modelled from the spec: the library sampler's padding of the
    permutation to [total] entries. *)
Definition pad_to (total : nat) (l : list nat) : list nat :=
  l ++ wrap_prefix l (total - List.length l).

(** Modelled from the spec: the un-padded shard of the library sampler,
    the slice of the permutation itself that falls to this rank before any
    padding is appended. *)
Definition unpadded_shard (perm : nat -> nat -> list nat)
    (s : DistributedSampler) : list nat :=
  slice (rank s * num_samples s) ((rank s + 1) * num_samples s)
        (perm (epoch s) (dataset_len s)).

(** Modelled from the spec: [order_for(epoch)] of section 4.3.  Permute all
    positions with the generator seeded by the epoch, pad the permutation
    with a wrap-around prefix of itself to [total_size], and take the
    contiguous slice [[rank * shard_len, (rank+1) * shard_len)]. *)
Definition order_for (perm : nat -> nat -> list nat)
    (s : DistributedSampler) : list nat :=
  let indices := perm (epoch s) (dataset_len s) in
  let padded := pad_to (total_size s) indices in
  slice (rank s * num_samples s) ((rank s + 1) * num_samples s) padded.

(** Modelled from the spec: the state of a [torch.Generator], the library
    object the sampler draws its permutation from. *)
Definition generator : Type := nat.

(** Modelled from the spec: [torch.Generator()], a new generator of the
    library; its first state is the library's and the process's affair. *)
Definition Generator (w : World) (st : proc) : generator :=
  fresh_generator w (default_generator st).

(** Modelled from the spec: [g.manual_seed(seed)] of the library: the
    state is from then on the one the seed determines, whatever it was. *)
Definition generator_manual_seed (g : generator) (seed : nat) : generator :=
  seed.

(** Modelled from the spec: iterating the library sampler inside the
    process.  A generator of its own is created and seeded with the
    epoch, the permutation is drawn from it, padded and sliced as in
    [order_for]. *)
Definition sampler__iter__ (w : World) (s : DistributedSampler)
    : M (list nat) :=
  fun st =>
    let g := Generator w st in
    let g := generator_manual_seed g (epoch s) in
    let indices := randperm w g (dataset_len s) in
    let padded := pad_to (total_size s) indices in
    (Ok (slice (rank s * num_samples s) ((rank s + 1) * num_samples s)
               padded),
     st).

(* ================================================================== *)
(** ** Batch loader *)

Record DataLoader : Type := mkDataLoader {
  dataset : ImageNet;
  batch_size : nat;
  sampler : DistributedSampler
}.

Fixpoint batches_aux (fuel bs : nat) (l : list nat) : list (list nat) :=
  match fuel with
  | 0 => []
  | S fuel' =>
      match l with
      | [] => []
      | _ => firstn bs l :: batches_aux fuel' bs (skipn bs l)
      end
  end.

(** Consecutive groups of [bs] positions; the last group may be shorter. *)
Definition batches (bs : nat) (l : list nat) : list (list nat) :=
  batches_aux (List.length l) bs l.

Fixpoint mapR {A B} (f : A -> result B) (l : list A) : result (list B) :=
  match l with
  | [] => Ok []
  | a :: l' => rbind (f a) (fun b => rbind (mapR f l') (fun bs => Ok (b :: bs)))
  end.

(** The shape of a sample as far as stacking goes: the size of its
    tensor; an image that was not turned into a tensor has none. *)
Definition tensor_shape (x : sample) : option nat :=
  match x with
  | TensorOf t => Some (List.length t)
  | PILImage _ => None
  end.

(** The samples of a batch can be stacked when all are tensors of one
    shape. *)
Definition collatable (items : list (sample * Z)) : bool :=
  match items with
  | [] => false
  | (x, _) :: rest =>
      match tensor_shape x with
      | None => false
      | Some n =>
          forallb (fun it => match tensor_shape (fst it) with
                             | Some m => m =? n
                             | None => false
                             end) rest
      end
  end.

(** [default_collate], the loader's collate function: it stacks the
    samples of a group into one batch or raises. *)
Definition default_collate (w : World) (items : list (sample * Z))
    : result (list (sample * Z)) :=
  match items with
  | [] => Err IndexError
  | _ => if collatable items then Ok items else Err (collate_error w items)
  end.

(** One batch: [dataset[i]] for each position of the group, then the
    collate step. *)
Definition load_batch (w : World) (ds : ImageNet) (idxs : list nat)
    : result (list (sample * Z)) :=
  rbind (mapR (__getitem__ w ds) idxs) (default_collate w).

Definition fetch (w : World) (ds : ImageNet) (idxs : list nat)
    : M (list (sample * Z)) :=
  lift (load_batch w ds idxs).

(* ================================================================== *)
(** ** Training engine *)

(** [optimizer.step()] of the wrapped optimizer: the call is recorded, then
    the collective inside it may fail. *)
Definition optimizer_step (w : World) (epoch i : nat) : M unit :=
  emit OptimizerStep ;;
  lift (hvd_allreduce w epoch i).

Fixpoint train_loop (w : World) (ds : ImageNet) (epoch i : nat)
    (bs : list (list nat)) : M unit :=
  match bs with
  | [] => ret tt
  | b :: rest =>
      data <- fetch w ds b ;;
      lift (to_cuda w data) ;;
      emit ZeroGrad ;;
      emit (Forward data) ;;
      lift (model_forward w epoch i data) ;;
      lift (cross_entropy w epoch i data) ;;
      emit Backward ;;
      lift (loss_backward w epoch i) ;;
      optimizer_step w epoch i ;;
      (if i mod 100 =? 0
       then lift (loss_item w epoch i) ;;
            emit (LogTrain epoch (i * List.length data))
       else ret tt) ;;
      train_loop w ds epoch (S i) rest
  end.

Definition train (w : World) (train_loader : DataLoader) (epoch : nat)
    : M unit :=
  emit (Log "Training ...") ;;
  order <- sampler__iter__ w (sampler train_loader) ;;
  train_loop w (dataset train_loader) epoch 0
             (batches (batch_size train_loader) order).

Fixpoint for_each {A} (l : list A) (body : A -> M unit) : M unit :=
  match l with
  | [] => ret tt
  | a :: l' => body a ;; for_each l' body
  end.

(** [main].  The loader holds a reference to the sampler, so the epoch set
    by [set_epoch] is the one the loader iterates with.  The [Timer]
    context managers only report elapsed time and are left out. *)
Definition main (w : World) : M unit :=
  (if _DISTRIBUTED w then
     emit (Log "Runnin Distributed") ;;
     h <- hvd w ;;
     emit HvdInit ;;
     lift (hvd_init h) ;;
     manual_seed _SEED ;;
     h <- hvd w ;;
     local_rank <- hvd__local_rank h ;;
     emit (CudaSetDevice local_rank) ;;
     emit (CudaManualSeed _SEED)
   else ret tt) ;;
  emit (Log "PyTorch version") ;;
  data <- _create_data_fn w (getenv w "AZ_BATCHAI_INPUT_TRAIN")
                            (getenv w "AZ_BATCHAI_INPUT_TEST") ;;
  let '(train_X, train_y, valid_X, valid_y) := data in
  emit (Log "Setting up loaders") ;;
  train_dataset <- ImageNet__init__ train_X train_y
                     (Some (train_transform w)) ;;
  h <- hvd w ;;
  size <- hvd__size h ;;
  h <- hvd w ;;
  rank <- hvd__rank h ;;
  let train_sampler :=
    DistributedSampler__init__ (__len__ train_dataset) size rank in
  emit (Log "Loading model") ;;
  emit ModelCuda ;;
  h <- hvd w ;;
  emit (BroadcastParameters 0) ;;
  lift (hvd_broadcast h) ;;
  h <- hvd w ;;
  _ <- hvd__size h ;;
  _ <- hvd w ;;
  for_each (seq 0 _EPOCHS) (fun epoch =>
    emit ModelTrain ;;
    emit (SetEpoch epoch) ;;
    train w (mkDataLoader train_dataset _BATCHSIZE
                          (set_epoch train_sampler epoch)) epoch).

Definition run {A} (m : M A) : result A * list event :=
  let (r, st) := m initial_proc in (r, trace st).

(* ================================================================== *)
(** ** Rank coordinator: the distributed optimizer *)

Section Optimizer.

(** The scalar type of a tensor and its arithmetic.  Nothing is assumed
    about the operations, so what holds here holds for any arithmetic
    the tensors are computed in. *)
Context {T : Type}.
Variables (add sub mul : T -> T -> T).
Variable div_by : T -> nat -> T.
Variable of_nat : nat -> T.

Fixpoint zip_with (f : T -> T -> T) (xs ys : list T) : list T :=
  match xs, ys with
  | x :: xs', y :: ys' => f x y :: zip_with f xs' ys'
  | _, _ => []
  end.

(** Modelled from the spec: the state of the optimizer that is wrapped,
    [optim.SGD] (library code) with momentum, no dampening, no weight
    decay, no Nesterov: the arguments the script passes. *)
Record SGD : Type := mkSGD {
  lr : T;
  momentum : T;
  params : list T;
  grad : list T;
  momentum_buffer : option (list T)
}.

(** [optim.SGD(model.parameters(), lr=_LR * hvd.size(), momentum=0.9)] *)
Definition make_optimizer (_LR momentum : T) (size : nat)
    (parameters : list T) : SGD :=
  mkSGD (mul _LR (of_nat size)) momentum parameters [] None.

(** [loss.backward()]: the gradient of this replica's batch is stored. *)
Definition backward (o : SGD) (g : list T) : SGD :=
  mkSGD (lr o) (momentum o) (params o) g (momentum_buffer o).

(** Modelled from the spec: the update the wrapped optimizer applies,
    [param - lr * d] with [d] the gradient on the first step and the
    momentum buffer afterwards; [optim.SGD.step] is library code. *)
Definition sgd_step (o : SGD) : SGD :=
  let buf :=
    match momentum_buffer o with
    | None => grad o
    | Some b => zip_with add (map (mul (momentum o)) b) (grad o)
    end in
  mkSGD (lr o) (momentum o)
        (zip_with (fun p d => sub p (mul (lr o) d)) (params o) buf)
        (grad o) (Some buf).

(** Modelled from the spec: the all-reduce of section 4.5 and the
    glossary, which sums the value every replica contributes and then
    averages; [horovod.torch] is library code.  [None] without replicas. *)
Definition allreduce (gs : list (list T)) : option (list T) :=
  match gs with
  | [] => None
  | g :: rest =>
      let total := fold_left (zip_with add) rest g in
      Some (map (fun x => div_by x (List.length gs)) total)
  end.

(** Modelled from the spec: [step()] of the optimizer that
    [hvd.DistributedOptimizer] returns, run on every replica of the
    group: first the all-reduce of the gradients, then the wrapped
    optimizer's update with the averaged gradient. *)
Definition distributed_step (replicas : list SGD) : list SGD :=
  match allreduce (map grad replicas) with
  | None => replicas
  | Some avg => map (fun o => sgd_step (backward o avg)) replicas
  end.

End Optimizer.

(** A file is readable and decodable when it can be opened, identified as
    an image and converted to RGB. *)
Definition read_decode (w : World) (im_file : string) : result image :=
  rbind (open_rb w im_file) (fun f =>
  rbind (Image_open w f) (fun im_rgb =>
  convert_RGB w im_rgb)).

(** The same world with another manifest at [path]. *)
Definition with_manifest (w : World) (path : string) (df : DataFrame)
    : World :=
  mkWorld (getenv w)
          (fun p => if (p =? path)%string then Ok df else read_csv w p)
          (open_rb w) (Image_open w) (convert_RGB w) (train_transform w)
          (randperm w) (hvd_init w) (hvd_size w) (hvd_rank w)
          (hvd_local_rank w) (hvd_broadcast w) (hvd_allreduce w)
          (keyerror_text w) (collate_error w) (to_cuda w)
          (model_forward w) (cross_entropy w) (loss_backward w)
          (loss_item w) (fresh_generator w).

(* ================================================================== *)
(** ** A small concrete world, used to run the definitions *)

Module Demo.

(** A stand-in generator: the identity order rotated by a seed-dependent
    amount. *)
Definition rotate (seed n : nat) : list nat :=
  let k := (7 * seed + 3) mod n in
  skipn k (seq 0 n) ++ firstn k (seq 0 n).

Definition train_manifest : DataFrame :=
  mkDataFrame (Some ["n01/a.JPEG"; "n02/b.JPEG"; "n02/c.JPEG"])
              (Some [1; 2; 1000]%Z).

Definition validation_manifest : DataFrame :=
  mkDataFrame (Some ["v0.JPEG"; "v1.JPEG"]) (Some [7; 1]%Z).

Definition other_validation_manifest : DataFrame :=
  mkDataFrame (Some ["x.JPEG"]) (Some [3]%Z).

Definition env (distributed : option string) (key : string)
    : option string :=
  if (key =? "DISTRIBUTED")%string then distributed
  else if (key =? "AZ_BATCHAI_INPUT_TRAIN")%string then Some "/data"
  else if (key =? "AZ_BATCHAI_INPUT_TEST")%string then Some "/data"
  else None.

Definition csv (p : string) : result DataFrame :=
  if (p =? "/data/train.csv")%string then Ok train_manifest
  else if (p =? "/data/validation.csv")%string then Ok validation_manifest
  else Err (IOError p).

(** Every file opens except the one named [corrupt]. *)
Definition files (corrupt : string) (p : string) : result (list Z) :=
  if (p =? corrupt)%string then Err (IOError p)
  else Ok [Z.of_nat (String.length p)].

Definition world (distributed : option string) (corrupt : string)
    (size rank : nat) : World :=
  mkWorld (env distributed) csv (files corrupt)
          (fun f => Ok f) (fun im => Ok im) (fun im => Ok (0%Z :: im))
          rotate (Ok tt) size rank rank (Ok tt) (fun _ _ => Ok tt)
          (fun column =>
             ("None of [Index(['" ++ column ++
              "'], dtype='object')] are in the [columns]")%string)
          (fun _ => RuntimeError "stack expects each tensor to be equal size")
          (fun _ => Ok tt) (fun _ _ _ => Ok tt) (fun _ _ _ => Ok tt)
          (fun _ _ => Ok tt) (fun _ _ => Ok tt) (fun _ => 0).

Definition dataset : ImageNet :=
  mkImageNet ["/data/train/n01/a.JPEG"; "/data/train/n02/b.JPEG"]
             [0; 1]%Z (Some (fun im => Ok im)).

(** Rational scalars [n / d] for running the optimizer. *)
Definition q (n : Z) (d : positive) : QArith_base.Q := QArith_base.Qmake n d.

Definition q_div_by (x : QArith_base.Q) (n : nat) : QArith_base.Q :=
  QArith_base.Qdiv x (QArith_base.inject_Z (Z.of_nat n)).

Definition q_of_nat (n : nat) : QArith_base.Q :=
  QArith_base.inject_Z (Z.of_nat n).

End Demo.

(* ================================================================== *)
(** ** Observations on traces *)

Definition is_broadcast (e : event) : bool :=
  match e with BroadcastParameters _ => true | _ => false end.

Definition is_step (e : event) : bool :=
  match e with OptimizerStep => true | _ => false end.

(** Number of [hvd.broadcast_parameters] calls in a trace. *)
Definition broadcasts (tr : list event) : nat :=
  List.length (filter is_broadcast tr).

(** Nothing of the synchronised training has happened yet: no broadcast
    and no optimizer step. *)
Definition not_started (tr : list event) : Prop :=
  forall e, In e tr -> is_broadcast e = false /\ is_step e = false.

(** The parameters were broadcast from rank 0, with no optimizer step
    before and no further broadcast after. *)
Definition synchronized (tr : list event) : Prop :=
  exists pre post,
    tr = pre ++ BroadcastParameters 0 :: post /\
    not_started pre /\
    (forall e, In e post -> is_broadcast e = false).

(** [m] preserves the trace invariant [I], whether it returns or raises. *)
Definition keeps (I : list event -> Prop) {A} (m : M A) : Prop :=
  forall st, I (trace st) -> I (trace (snd (m st))).

(** Started before the broadcast, [m] ends synchronised, or raises with
    nothing started. *)
Definition reaches_broadcast {A} (m : M A) : Prop :=
  forall st, not_started (trace st) ->
    synchronized (trace (snd (m st))) \/
    (not_started (trace (snd (m st))) /\ is_ok (fst (m st)) = false).

(** A manifest loads when both columns the script reads are present. *)
Definition loadable (df : DataFrame) : bool :=
  match df_filenames df, df_num_id df with
  | Some _, Some _ => true
  | _, _ => false
  end.

(** Two statements behave alike: from the same process state they raise
    the same exception or return values related by [R], and leave the same
    process state behind. *)
Definition agree {A B} (R : A -> B -> Prop) (m1 : M A) (m2 : M B) : Prop :=
  forall st,
    snd (m1 st) = snd (m2 st) /\
    match fst (m1 st), fst (m2 st) with
    | Ok a, Ok b => R a b
    | Err e1, Err e2 => e1 = e2
    | _, _ => False
    end.

(** Two Horovod handles answer alike. *)
Definition same_hvd (h1 h2 : World) : Prop :=
  hvd_init h1 = hvd_init h2 /\
  hvd_size h1 = hvd_size h2 /\
  hvd_rank h1 = hvd_rank h2 /\
  hvd_local_rank h1 = hvd_local_rank h2 /\
  hvd_broadcast h1 = hvd_broadcast h2.

(** The training halves of what [_create_data_fn] returns are equal. *)
Definition same_train
    (d1 d2 : list string * list Z * list string * list Z) : Prop :=
  let '(train_X1, train_y1, _, _) := d1 in
  let '(train_X2, train_y2, _, _) := d2 in
  train_X1 = train_X2 /\ train_y1 = train_y2.

(* ================================================================== *)
(** ** Further observations and faulty worlds *)

(** Number of [optimizer.step()] calls in a trace. *)
Definition steps (tr : list event) : nat :=
  List.length (filter is_step tr).

(** The batches handed to the model, in the order of the forward passes. *)
Definition forwarded (tr : list event) : list (list (sample * Z)) :=
  flat_map (fun e => match e with Forward b => [b] | _ => [] end) tr.

(** Started with nothing of the training begun, [m] always raises, and the
    trace it leaves satisfies [Q]. *)
Definition aborts (Q : list event -> Prop) {A} (m : M A) : Prop :=
  forall st, not_started (trace st) ->
    is_ok (fst (m st)) = false /\ Q (trace (snd (m st))).

(** Everything the [i]-th iteration does with its batch besides fetching
    it succeeds: the transfer to the device, the forward pass, the loss,
    the backward pass, the collective of the step and, for a step that
    reports progress, reading the loss. *)
Definition iteration_ok (w : World) (epoch i : nat)
    (data : list (sample * Z)) : bool :=
  is_ok (to_cuda w data) &&
  is_ok (model_forward w epoch i data) &&
  is_ok (cross_entropy w epoch i data) &&
  is_ok (loss_backward w epoch i) &&
  is_ok (hvd_allreduce w epoch i) &&
  (if i mod 100 =? 0 then is_ok (loss_item w epoch i) else true).

(** The same world in a process whose new generators start elsewhere. *)
Definition with_fresh_generator (w : World) (fresh : option nat -> nat)
    : World :=
  mkWorld (getenv w) (read_csv w)
          (open_rb w) (Image_open w) (convert_RGB w) (train_transform w)
          (randperm w) (hvd_init w) (hvd_size w) (hvd_rank w)
          (hvd_local_rank w) (hvd_broadcast w) (hvd_allreduce w)
          (keyerror_text w) (collate_error w) (to_cuda w)
          (model_forward w) (cross_entropy w) (loss_backward w)
          (loss_item w) fresh.

(** The events of one iteration of the loop in [train]. *)
Definition iteration_events (epoch i : nat) (data : list (sample * Z))
    : list event :=
  [ZeroGrad; Forward data; Backward; OptimizerStep] ++
  (if i mod 100 =? 0 then [LogTrain epoch (i * List.length data)] else []).

Module Faults.

(** The distributed demo world on two replicas, seen from rank 0, with the
    manifests and the outcomes of the collectives chosen by the caller. *)
Definition world (csv : string -> result DataFrame)
    (init broadcast : result unit) (allreduce : nat -> nat -> result unit)
    : World :=
  mkWorld (Demo.env (Some "true")) csv (Demo.files "")
          (fun f => Ok f) (fun im => Ok im) (fun im => Ok (0%Z :: im))
          Demo.rotate init 2 0 0 broadcast allreduce
          (fun column =>
             ("None of [Index(['" ++ column ++
              "'], dtype='object')] are in the [columns]")%string)
          (fun _ => RuntimeError "stack expects each tensor to be equal size")
          (fun _ => Ok tt) (fun _ _ _ => Ok tt) (fun _ _ _ => Ok tt)
          (fun _ _ => Ok tt) (fun _ _ => Ok tt) (fun _ => 0).

(** Only the training manifest exists. *)
Definition csv_without_validation (p : string) : result DataFrame :=
  if (p =? "/data/train.csv")%string then Ok Demo.train_manifest
  else Err (IOError p).

(** The training manifest has no [num_id] column. *)
Definition csv_without_num_id (p : string) : result DataFrame :=
  if (p =? "/data/train.csv")%string
  then Ok (mkDataFrame (Some ["n01/a.JPEG"]) None)
  else Demo.csv p.

(** A dataset without a transform: its samples stay images. *)
Definition untransformed : ImageNet :=
  mkImageNet ["/data/train/n01/a.JPEG"] [0%Z] None.

(** More images than labels. *)
Definition short_labels : ImageNet :=
  mkImageNet ["/data/train/n01/a.JPEG"; "/data/train/n02/b.JPEG"]
             [0%Z] None.

End Faults.

(* ================================================================== *)
(** * Properties *)

(* ------------------------------------------------------------------ *)
(** ** The DISTRIBUTED flag parser *)

Lemma str_in_char (c : ascii) (s : string) :
  str_in (String c EmptyString) s = true <-> In c (list_ascii_of_string s).
Proof.
  induction s as [|d s IH]; simpl.
  - split; [discriminate | tauto].
  - destruct (ascii_dec c d) as [->|Hne].
    + assert (prefix "" s = true) as -> by (destruct s; reflexivity).
      simpl. tauto.
    + simpl. rewrite IH. split; [tauto|].
      intros [Heq|Hin]; [congruence | assumption].
Qed.

(** C9: [_str_to_bool s] is true exactly when the character [t] occurs in
    [s.lower()]; so "1", "yes" and "on" parse as false, while "not" and
    "nothing" parse as true. *)
Theorem str_to_bool_iff_t_in_lower :
  (forall s : string,
      _str_to_bool s = true <->
      In "t"%char (list_ascii_of_string (lower s))) /\
  _str_to_bool "1" = false /\
  _str_to_bool "yes" = false /\
  _str_to_bool "on" = false /\
  _str_to_bool "not" = true /\
  _str_to_bool "nothing" = true.
Proof.
  split; [|repeat split; reflexivity].
  intros s. unfold _str_to_bool.
  rewrite <- str_in_char.
  destruct (str_in "t" (lower s)); split; congruence.
Qed.

Example str_to_bool_True : _str_to_bool "True" = true.
Proof. reflexivity. Qed.

Example str_to_bool_default : _str_to_bool "False" = false.
Proof. reflexivity. Qed.

(* ------------------------------------------------------------------ *)
(** ** Sample index *)

Lemma wrap64_pred (k : Z) :
  (1 <= k < 2 ^ 63)%Z -> wrap64 (k - 1) = (k - 1)%Z.
Proof.
  intros Hk. unfold wrap64.
  rewrite Z.mod_small; lia.
Qed.

Lemma minus_one_nth (ids : list Z) (i : nat) (k : Z) :
  nth_error ids i = Some k -> (1 <= k < 2 ^ 63)%Z ->
  nth_error (minus_one ids) i = Some (k - 1)%Z.
Proof.
  intros Hi Hk. unfold minus_one.
  rewrite (map_nth_error _ _ _ Hi). now rewrite wrap64_pred.
Qed.

Lemma append_path_nth (root : string) (names : list string) (i : nat)
    (name : string) :
  nth_error names i = Some name ->
  nth_error (_append_path_to root names) i = Some (path_join root name).
Proof.
  intros Hi. unfold _append_path_to. now rewrite (map_nth_error _ _ _ Hi).
Qed.

Lemma load_split_ok (w : World) (dir csv subdir : string)
    (names : list string) (ids : option (list Z)) :
  read_csv w (path_join dir csv) = Ok (mkDataFrame (Some names) ids) ->
  load_split w (Some dir) csv subdir =
  Ok (mkDataFrame (Some (_append_path_to (path_join dir subdir) names)) ids).
Proof.
  intros Hcsv. unfold load_split. simpl. rewrite Hcsv. reflexivity.
Qed.

Lemma create_data_fn_ok (w : World) (train_dir test_dir : string)
    (tnames vnames : list string) (tids vids : list Z) (st : proc) :
  read_csv w (path_join train_dir "train.csv") =
    Ok (mkDataFrame (Some tnames) (Some tids)) ->
  read_csv w (path_join test_dir "validation.csv") =
    Ok (mkDataFrame (Some vnames) (Some vids)) ->
  _create_data_fn w (Some train_dir) (Some test_dir) st =
  (Ok (_append_path_to (path_join train_dir "train") tnames,
       minus_one tids,
       _append_path_to (path_join test_dir "validation") vnames,
       minus_one vids),
   mkProc (trace st ++ [Log "Reading training data info";
                        Log "Reading validation data info"])
          (default_generator st)).
Proof.
  intros Ht Hv.
  unfold _create_data_fn, _load_training, _load_validation, bind, lift, emit, ret.
  rewrite (load_split_ok _ _ _ _ _ _ Ht), (load_split_ok _ _ _ _ _ _ Hv).
  simpl. rewrite <- app_assoc. reflexivity.
Qed.

(** C7: for every manifest row with 1-based class id [k], the label the
    loaded index holds is [k - 1], for the training and for the validation
    manifest alike, and the path it holds is the split's data root joined
    with the row's file name. *)
Theorem create_data_fn_zero_based_labels (w : World)
    (train_dir test_dir : string)
    (tnames vnames : list string) (tids vids : list Z) (st : proc) :
  read_csv w (path_join train_dir "train.csv") =
    Ok (mkDataFrame (Some tnames) (Some tids)) ->
  read_csv w (path_join test_dir "validation.csv") =
    Ok (mkDataFrame (Some vnames) (Some vids)) ->
  exists train_X train_y valid_X valid_y st',
    _create_data_fn w (Some train_dir) (Some test_dir) st =
      (Ok (train_X, train_y, valid_X, valid_y), st') /\
    (forall i name k,
        nth_error tnames i = Some name -> nth_error tids i = Some k ->
        (1 <= k < 2 ^ 63)%Z ->
        nth_error train_X i =
          Some (path_join (path_join train_dir "train") name) /\
        nth_error train_y i = Some (k - 1)%Z) /\
    (forall i name k,
        nth_error vnames i = Some name -> nth_error vids i = Some k ->
        (1 <= k < 2 ^ 63)%Z ->
        nth_error valid_X i =
          Some (path_join (path_join test_dir "validation") name) /\
        nth_error valid_y i = Some (k - 1)%Z).
Proof.
  intros Ht Hv.
  do 5 eexists. split; [apply (create_data_fn_ok _ _ _ _ _ _ _ st Ht Hv)|].
  split; intros i name k Hn Hk Hr; split;
    auto using append_path_nth, minus_one_nth.
Qed.

Lemma create_data_fn_zero_based_labels_witness :
  exists train_X train_y valid_X valid_y st',
    _create_data_fn (Demo.world (Some "True") "" 2 0)
                    (Some "/data") (Some "/data") initial_proc =
      (Ok (train_X, train_y, valid_X, valid_y), st') /\
    nth_error train_X 2 = Some "/data/train/n02/c.JPEG" /\
    nth_error train_y 2 = Some 999%Z /\
    nth_error valid_X 0 = Some "/data/validation/v0.JPEG" /\
    nth_error valid_y 0 = Some 6%Z.
Proof.
  destruct (create_data_fn_zero_based_labels
              (Demo.world (Some "True") "" 2 0) "/data" "/data"
              ["n01/a.JPEG"; "n02/b.JPEG"; "n02/c.JPEG"]
              ["v0.JPEG"; "v1.JPEG"] [1; 2; 1000]%Z [7; 1]%Z initial_proc
              eq_refl eq_refl)
    as (tX & ty & vX & vy & st' & Hrun & Ht & Hv).
  exists tX, ty, vX, vy, st'.
  destruct (Ht 2 "n02/c.JPEG" 1000%Z eq_refl eq_refl) as [HX Hy]; [lia|].
  destruct (Hv 0 "v0.JPEG" 7%Z eq_refl eq_refl) as [HX' Hy']; [lia|].
  repeat split; assumption.
Defined.

(** A file name that is not absolute is appended to the root after one
    separator. *)
Lemma path_join_relative (root name : string) :
  startswith "/" name = false ->
  path_join root name = (root ++ name)%string \/
  path_join root name = (root ++ "/" ++ name)%string.
Proof.
  intros Hrel. unfold path_join. rewrite Hrel.
  destruct ((root =? "")%string || endswith_char "/" root); auto.
Qed.

(* ------------------------------------------------------------------ *)
(** ** Dataset adapter *)

Lemma getitem_Ok {A} (l : list A) (idx : nat) (a : A) :
  nth_error l idx = Some a -> getitem l idx = Ok a.
Proof. intros H. unfold getitem. now rewrite H. Qed.

Lemma getitem_propagates (w : World) (self : ImageNet) (idx : nat)
    (im_file : string) (label : Z) (e : exn) :
  nth_error (img_locs self) idx = Some im_file ->
  nth_error (labels self) idx = Some label ->
  read_decode w im_file = Err e ->
  __getitem__ w self idx = Err e.
Proof.
  intros Hloc Hlab Hbad. unfold __getitem__.
  rewrite (getitem_Ok _ _ _ Hloc), (getitem_Ok _ _ _ Hlab). simpl.
  unfold read_decode in Hbad.
  destruct (open_rb w im_file) as [f|e1]; simpl in *; [|congruence].
  destruct (Image_open w f) as [im|e2]; simpl in *; [|congruence].
  destruct (convert_RGB w im) as [rgb|e3]; simpl in *; congruence.
Qed.

Lemma getitem_never_substitutes (w : World) (self : ImageNet) (idx : nat)
    (im_file : string) (e : exn) :
  nth_error (img_locs self) idx = Some im_file ->
  read_decode w im_file = Err e ->
  is_ok (__getitem__ w self idx) = false.
Proof.
  intros Hloc Hbad.
  destruct (nth_error (labels self) idx) as [label|] eqn:Hlab.
  - now rewrite (getitem_propagates _ _ _ _ _ _ Hloc Hlab Hbad).
  - unfold __getitem__. rewrite (getitem_Ok _ _ _ Hloc). simpl.
    unfold getitem. now rewrite Hlab.
Qed.

Lemma mapR_fails {A B} (f : A -> result B) (l : list A) (a : A) :
  In a l -> is_ok (f a) = false -> is_ok (mapR f l) = false.
Proof.
  induction l as [|x l IH]; simpl; [tauto|].
  intros [->|Hin] Hbad.
  - destruct (f a); [discriminate | reflexivity].
  - destruct (f x); [|reflexivity]. simpl.
    specialize (IH Hin Hbad). destruct (mapR f l); [discriminate | reflexivity].
Qed.

Lemma load_batch_fails (w : World) (ds : ImageNet) (idxs : list nat)
    (idx : nat) :
  In idx idxs -> is_ok (__getitem__ w ds idx) = false ->
  is_ok (load_batch w ds idxs) = false.
Proof.
  intros Hin Hbad. unfold load_batch.
  pose proof (mapR_fails (__getitem__ w ds) idxs idx Hin Hbad) as Hmap.
  destruct (mapR (__getitem__ w ds) idxs); [discriminate | reflexivity].
Qed.

(** C8: when the file of a position cannot be read or decoded,
    [ImageNet.__getitem__] ends in that very exception: it returns no
    value at all (so no substitute tensor), and a batch that asks for the
    position fails as a whole instead of leaving the sample out. *)
Theorem getitem_decode_error_propagates (w : World) (self : ImageNet)
    (idx : nat) (im_file : string) (e : exn) :
  nth_error (img_locs self) idx = Some im_file ->
  read_decode w im_file = Err e ->
  is_ok (__getitem__ w self idx) = false /\
  (forall label, nth_error (labels self) idx = Some label ->
                 __getitem__ w self idx = Err e) /\
  (forall idxs st, In idx idxs ->
                   is_ok (fst (fetch w self idxs st)) = false /\
                   snd (fetch w self idxs st) = st).
Proof.
  intros Hloc Hbad. split; [|split].
  - eapply getitem_never_substitutes; eassumption.
  - intros label Hlab. eapply getitem_propagates; eassumption.
  - intros idxs st Hin. unfold fetch, lift. simpl. split; [|reflexivity].
    eapply load_batch_fails; [exact Hin|].
    eapply getitem_never_substitutes; eassumption.
Qed.

Lemma getitem_decode_error_propagates_witness :
  __getitem__ (Demo.world (Some "True") "/data/train/n02/b.JPEG" 2 0)
              Demo.dataset 1 = Err (IOError "/data/train/n02/b.JPEG") /\
  is_ok (fst (fetch (Demo.world (Some "True") "/data/train/n02/b.JPEG" 2 0)
                    Demo.dataset [0; 1] initial_proc)) = false.
Proof.
  destruct (getitem_decode_error_propagates
              (Demo.world (Some "True") "/data/train/n02/b.JPEG" 2 0)
              Demo.dataset 1 "/data/train/n02/b.JPEG"
              (IOError "/data/train/n02/b.JPEG") eq_refl eq_refl)
    as (_ & Hsame & Hbatch).
  split.
  - exact (Hsame 1%Z eq_refl).
  - apply (Hbatch [0; 1] initial_proc). simpl. auto.
Defined.

Example getitem_readable :
  __getitem__ (Demo.world (Some "True") "/data/train/n02/b.JPEG" 2 0)
              Demo.dataset 0 = Ok (TensorOf [22%Z], 0%Z).
Proof. reflexivity. Qed.

(* ------------------------------------------------------------------ *)
(** ** Distributed sampler *)

Section SliceFacts.

Context {A : Type}.

Lemma slice_length (a b : nat) (l : list A) :
  List.length (slice a b l) = Nat.min (b - a) (List.length l - a).
Proof. unfold slice. now rewrite length_firstn, length_skipn. Qed.

Lemma slice_nth_error (a b i : nat) (l : list A) :
  nth_error (slice a b l) i =
  if i <? b - a then nth_error l (a + i) else None.
Proof. unfold slice. now rewrite nth_error_firstn, nth_error_skipn. Qed.

Lemma slice_In_intro (a b i : nat) (l : list A) (x : A) :
  nth_error l i = Some x -> a <= i < b -> In x (slice a b l).
Proof.
  intros Hi Hr. apply (nth_error_In _ (i - a)).
  rewrite slice_nth_error.
  destruct (Nat.ltb_spec (i - a) (b - a)); [|lia].
  now replace (a + (i - a)) with i by lia.
Qed.

Lemma slice_In_elim (a b : nat) (l : list A) (x : A) :
  In x (slice a b l) ->
  exists i, a <= i < b /\ nth_error l i = Some x.
Proof.
  intros Hin. apply In_nth_error in Hin as [j Hj].
  rewrite slice_nth_error in Hj.
  destruct (Nat.ltb_spec j (b - a)); [|discriminate].
  exists (a + j). split; [lia | assumption].
Qed.

Lemma slice_incl (a b : nat) (l : list A) (x : A) :
  In x (slice a b l) -> In x l.
Proof.
  intros Hin. apply slice_In_elim in Hin as (i & _ & Hi).
  eapply nth_error_In; eassumption.
Qed.

Lemma slice_app (a b : nat) (l pad : list A) :
  slice a b (l ++ pad) =
  slice a b l ++
  firstn (b - a - List.length (skipn a l)) (skipn (a - List.length l) pad).
Proof. unfold slice. now rewrite skipn_app, firstn_app. Qed.

End SliceFacts.

Lemma ceil_div_upper (n w : nat) : 1 <= w -> n <= ceil_div n w * w.
Proof.
  intros Hw. unfold ceil_div.
  pose proof (Nat.div_mod_eq n w) as Hdm.
  pose proof (Nat.mod_upper_bound n w ltac:(lia)) as Hlt.
  destruct (Nat.eqb_spec (n mod w) 0); nia.
Qed.

Lemma ceil_div_lower (n w : nat) :
  1 <= w -> 1 <= n -> (ceil_div n w - 1) * w < n.
Proof.
  intros Hw Hn. unfold ceil_div.
  pose proof (Nat.div_mod_eq n w) as Hdm.
  destruct (Nat.eqb_spec (n mod w) 0) as [Hz|Hnz].
  - rewrite Hz in Hdm. rewrite Nat.add_0_r in *.
    assert (1 <= n / w) by (destruct (n / w); nia). nia.
  - replace (n / w + 1 - 1) with (n / w) by lia. nia.
Qed.

Lemma ceil_div_pos (n w : nat) : 1 <= w -> 1 <= n -> 1 <= ceil_div n w.
Proof.
  intros Hw Hn. pose proof (ceil_div_upper n w Hw).
  destruct (ceil_div n w); simpl in *; lia.
Qed.

Lemma wrap_prefix_length (l : list nat) (k : nat) :
  List.length (wrap_prefix l k) = k.
Proof. unfold wrap_prefix. now rewrite length_map, length_seq. Qed.

Lemma wrap_prefix_firstn (l : list nat) (k : nat) :
  k <= List.length l -> wrap_prefix l k = firstn k l.
Proof.
  intros Hk. apply nth_error_ext. intros i. unfold wrap_prefix.
  rewrite nth_error_map, nth_error_firstn.
  destruct (Nat.ltb_spec i k) as [Hlt|Hge].
  - rewrite nth_error_seq.
    destruct (Nat.ltb_spec i k); [|lia]. simpl.
    rewrite Nat.mod_small by lia.
    symmetry. apply nth_error_nth'. lia.
  - rewrite (proj2 (nth_error_None (seq 0 k) i)); [reflexivity|].
    rewrite length_seq. lia.
Qed.

Lemma wrap_prefix_In (l : list nat) (k p : nat) :
  l <> [] -> In p (wrap_prefix l k) -> In p l.
Proof.
  intros Hne. unfold wrap_prefix. rewrite in_map_iff. intros (i & <- & _).
  apply nth_In. apply Nat.mod_upper_bound.
  destruct l; [congruence | simpl; lia].
Qed.

Section SamplerFacts.

Variable perm : nat -> nat -> list nat.
Hypothesis perm_ok : forall seed n, Permutation (perm seed n) (seq 0 n).

Lemma perm_length (seed n : nat) : List.length (perm seed n) = n.
Proof.
  rewrite (Permutation_length (perm_ok seed n)). apply length_seq.
Qed.

Lemma perm_NoDup (seed n : nat) : NoDup (perm seed n).
Proof.
  eapply Permutation_NoDup;
    [apply Permutation_sym, perm_ok | apply seq_NoDup].
Qed.

Lemma perm_In (seed n p : nat) : In p (perm seed n) <-> p < n.
Proof.
  split; intros H.
  - apply (Permutation_in _ (perm_ok seed n)) in H.
    apply in_seq in H. lia.
  - apply (Permutation_in _ (Permutation_sym (perm_ok seed n))).
    apply in_seq. lia.
Qed.

Lemma padded_length (s : DistributedSampler) :
  1 <= num_replicas s ->
  List.length (pad_to (total_size s) (perm (epoch s) (dataset_len s))) =
  total_size s.
Proof.
  intros Hw. unfold pad_to.
  rewrite length_app, wrap_prefix_length, perm_length.
  pose proof (ceil_div_upper (dataset_len s) (num_replicas s) Hw).
  unfold total_size, num_samples. lia.
Qed.

(** With no more replicas than samples the padding is a plain prefix of
    the permutation. *)
Lemma pad_to_plain_prefix (s : DistributedSampler) :
  1 <= num_replicas s -> num_replicas s <= dataset_len s ->
  pad_to (total_size s) (perm (epoch s) (dataset_len s)) =
  perm (epoch s) (dataset_len s) ++
  firstn (total_size s - dataset_len s) (perm (epoch s) (dataset_len s)).
Proof.
  intros Hw Hn. unfold pad_to. f_equal.
  rewrite perm_length. apply wrap_prefix_firstn. rewrite perm_length.
  pose proof (ceil_div_lower (dataset_len s) (num_replicas s) Hw
                ltac:(lia)) as Hlow.
  unfold total_size, num_samples.
  destruct (ceil_div (dataset_len s) (num_replicas s)); simpl in *; nia.
Qed.

Lemma padded_In (s : DistributedSampler) (p : nat) :
  In p (pad_to (total_size s) (perm (epoch s) (dataset_len s))) ->
  p < dataset_len s.
Proof.
  unfold pad_to. rewrite in_app_iff. intros [Hin|Hin].
  - now apply perm_In in Hin.
  - destruct (perm (epoch s) (dataset_len s)) as [|x l] eqn:Hl.
    + pose proof (perm_length (epoch s) (dataset_len s)) as Hlen.
      rewrite Hl in Hlen. simpl in Hlen.
      unfold total_size, num_samples, ceil_div in Hin.
      rewrite <- Hlen in Hin. simpl in Hin.
      rewrite Nat.Div0.div_0_l, Nat.Div0.mod_0_l in Hin. simpl in Hin.
      contradiction.
    + apply wrap_prefix_In in Hin; [|discriminate].
      rewrite <- Hl in Hin. now apply perm_In in Hin.
Qed.

Lemma order_for_length (s : DistributedSampler) :
  1 <= num_replicas s -> rank s < num_replicas s ->
  List.length (order_for perm s) = num_samples s.
Proof.
  intros Hw Hr. unfold order_for.
  rewrite slice_length, padded_length by assumption.
  unfold total_size. nia.
Qed.

Lemma order_for_In (s : DistributedSampler) (p : nat) :
  In p (order_for perm s) -> p < dataset_len s.
Proof.
  unfold order_for. intros Hin. apply slice_incl in Hin.
  eapply padded_In; eassumption.
Qed.

(** Every position lies in the shard of the rank whose slice holds its
    place in the permutation. *)
Lemma order_for_covers (n w e p : nat) :
  1 <= w -> p < n ->
  exists r, r < w /\ In p (order_for perm (mkSampler n w r e)).
Proof.
  intros Hw Hp.
  assert (Hn : 1 <= n) by lia.
  pose proof (ceil_div_pos n w Hw Hn) as HL.
  pose proof (ceil_div_upper n w Hw) as HU.
  apply perm_In with (seed := e) in Hp.
  apply In_nth_error in Hp as [i Hi].
  assert (Hin : i < n).
  { rewrite <- (perm_length e n). apply nth_error_Some. congruence. }
  exists (i / ceil_div n w). split.
  - apply Nat.Div0.div_lt_upper_bound. nia.
  - unfold order_for, num_samples, total_size, pad_to. simpl.
    apply slice_In_intro with (i := i).
    + rewrite nth_error_app1; [assumption|]. now rewrite perm_length.
    + pose proof (Nat.div_mod_eq i (ceil_div n w)) as Hdm.
      pose proof (Nat.mod_upper_bound i (ceil_div n w) ltac:(lia)).
      nia.
Qed.

Lemma shards_union (n w e : nat) :
  1 <= w -> 1 <= n ->
  forall p,
    In p (List.concat (map (fun r => order_for perm (mkSampler n w r e))
                      (seq 0 w))) <-> p < n.
Proof.
  intros Hw Hn p. rewrite in_concat. split.
  - intros (sh & Hsh & Hp). apply in_map_iff in Hsh as (r & <- & _).
    now apply order_for_In in Hp.
  - intros Hp. destruct (order_for_covers n w e p Hw Hp) as (r & Hr & Hin).
    eexists. split; [|exact Hin].
    apply in_map_iff. exists r. split; [reflexivity|].
    apply in_seq. lia.
Qed.

Lemma unpadded_disjoint (n w e r1 r2 p : nat) :
  r1 <> r2 ->
  In p (unpadded_shard perm (mkSampler n w r1 e)) ->
  In p (unpadded_shard perm (mkSampler n w r2 e)) -> False.
Proof.
  unfold unpadded_shard, num_samples. simpl. intros Hne H1 H2.
  apply slice_In_elim in H1 as (i & Hi & Hpi).
  apply slice_In_elim in H2 as (j & Hj & Hpj).
  assert (i = j).
  { apply (proj1 (NoDup_nth_error (perm e n)) (perm_NoDup e n)).
    - apply nth_error_Some. congruence.
    - congruence. }
  subst j. nia.
Qed.

Lemma order_for_unpadded (s : DistributedSampler) :
  exists padding,
    order_for perm s = unpadded_shard perm s ++ padding /\
    forall p, In p padding ->
      In p (wrap_prefix (perm (epoch s) (dataset_len s))
                        (total_size s - dataset_len s)).
Proof.
  unfold order_for, unpadded_shard, pad_to.
  rewrite slice_app, perm_length.
  eexists. split; [reflexivity|].
  intros p Hin.
  match type of Hin with
  | In _ (firstn ?k (skipn ?a _)) => apply (slice_incl a (a + k))
  end.
  unfold slice. now rewrite Nat.add_comm, Nat.add_sub.
Qed.

End SamplerFacts.

Lemma rotate_perm (seed n : nat) :
  Permutation (Demo.rotate seed n) (seq 0 n).
Proof.
  unfold Demo.rotate.
  eapply Permutation_trans; [apply Permutation_app_comm|].
  now rewrite firstn_skipn.
Qed.

Example rotate_shards :
  map (fun r => order_for Demo.rotate (DistributedSampler__init__ 10 3 r))
      [0; 1; 2] =
  [[3; 4; 5; 6]; [7; 8; 9; 0]; [1; 2; 3; 4]].
Proof. reflexivity. Qed.

(** C1: for every [world_size >= 1], [total_samples >= 1] and epoch, each
    rank's shard has length [ceil(total_samples / world_size)], and the
    shards of all ranks together, duplicates from the wrap-around padding
    removed, are exactly the positions [0 .. total_samples - 1].  With 10
    samples on 3 replicas at epoch 0 the order is padded to 12 and there
    are three shards of length 4 that cover all 10 positions. *)
Theorem sampler_shards_cover_all_positions
    (perm : nat -> nat -> list nat)
    (perm_ok : forall seed n, Permutation (perm seed n) (seq 0 n)) :
  (forall world_size total_samples epoch,
      1 <= world_size -> 1 <= total_samples ->
      let shard r :=
        order_for perm
          (set_epoch (DistributedSampler__init__ total_samples world_size r)
                     epoch) in
      let L := ceil_div total_samples world_size in
      (L - 1) * world_size < total_samples <= L * world_size /\
      (forall r, r < world_size -> List.length (shard r) = L) /\
      (forall p, (exists r, r < world_size /\ In p (shard r)) <->
                 p < total_samples) /\
      Permutation
        (nodup Nat.eq_dec (List.concat (map shard (seq 0 world_size))))
        (seq 0 total_samples)) /\
  (let shard r := order_for perm (DistributedSampler__init__ 10 3 r) in
   total_size (DistributedSampler__init__ 10 3 0) = 12 /\
   List.length (shard 0) = 4 /\
   List.length (shard 1) = 4 /\
   List.length (shard 2) = 4 /\
   forall p, p < 10 -> In p (shard 0 ++ shard 1 ++ shard 2)).
Proof.
  split.
  - intros w n e Hw Hn shard L. subst shard L.
    unfold set_epoch, DistributedSampler__init__. simpl.
    split; [|split; [|split]].
    + split; [now apply ceil_div_lower | now apply ceil_div_upper].
    + intros r Hr.
      now rewrite (order_for_length perm perm_ok) by (simpl; lia).
    + intros p. split.
      * intros (r & _ & Hin).
        now apply (order_for_In perm perm_ok) in Hin.
      * intros Hp. now apply (order_for_covers perm perm_ok).
    + apply NoDup_Permutation.
      * apply NoDup_nodup.
      * apply seq_NoDup.
      * intros p. rewrite nodup_In, (shards_union perm perm_ok) by assumption.
        rewrite in_seq. lia.
  - cbv zeta. split; [reflexivity|].
    repeat split;
      try (rewrite (order_for_length perm perm_ok); simpl; [reflexivity|lia|lia]).
    intros p Hp.
    pose proof (proj2 (shards_union perm perm_ok 10 3 0
                         ltac:(lia) ltac:(lia) p) Hp) as Hin.
    simpl in Hin. now rewrite app_nil_r in Hin.
Qed.

Lemma sampler_shards_cover_all_positions_witness :
  List.length (order_for Demo.rotate (DistributedSampler__init__ 10 3 2)) = 4 /\
  (forall p, p < 7 ->
     exists r, r < 2 /\
       In p (order_for Demo.rotate
               (set_epoch (DistributedSampler__init__ 7 2 r) 5))).
Proof.
  destruct (sampler_shards_cover_all_positions Demo.rotate rotate_perm)
    as [Hall Hscenario].
  split.
  - apply Hscenario.
  - intros p Hp.
    destruct (Hall 2 7 5 ltac:(lia) ltac:(lia)) as (_ & _ & Hcover & _).
    now apply Hcover.
Defined.

(** C2: for two distinct ranks with the same world size and epoch, the
    un-padded shards share no position; the shard a rank iterates is its
    un-padded shard followed by entries of the wrap-around padding only. *)
Theorem sampler_unpadded_shards_disjoint
    (perm : nat -> nat -> list nat)
    (perm_ok : forall seed n, Permutation (perm seed n) (seq 0 n))
    (total_samples world_size e rank1 rank2 : nat) :
  rank1 <> rank2 ->
  let s1 := mkSampler total_samples world_size rank1 e in
  let s2 := mkSampler total_samples world_size rank2 e in
  (forall p, In p (unpadded_shard perm s1) ->
             In p (unpadded_shard perm s2) -> False) /\
  (forall s, exists padding,
      order_for perm s = unpadded_shard perm s ++ padding /\
      forall p, In p padding ->
        In p (wrap_prefix (perm (epoch s) (dataset_len s))
                          (total_size s - dataset_len s))).
Proof.
  intros Hne s1 s2. split.
  - intros p. now apply (unpadded_disjoint perm perm_ok).
  - intros s. now apply order_for_unpadded.
Qed.

Lemma sampler_unpadded_shards_disjoint_witness :
  0 <> 2 /\
  In 3 (unpadded_shard Demo.rotate (mkSampler 10 3 0 0)) /\
  ~ In 3 (unpadded_shard Demo.rotate (mkSampler 10 3 2 0)).
Proof.
  assert (Hne : 0 <> 2) by lia.
  assert (Hin : In 3 (unpadded_shard Demo.rotate (mkSampler 10 3 0 0)))
    by (simpl; auto).
  split; [exact Hne|]. split; [exact Hin|].
  intros Hin2.
  exact (proj1 (sampler_unpadded_shards_disjoint Demo.rotate rotate_perm
                  10 3 0 0 2 Hne) 3 Hin Hin2).
Defined.

Example rotate_unpadded_shards :
  map (fun r => unpadded_shard Demo.rotate (mkSampler 10 3 r 0)) [0; 1; 2] =
  [[3; 4; 5; 6]; [7; 8; 9; 0]; [1; 2]].
Proof. reflexivity. Qed.

Lemma sampler_iter_order (w : World) (s : DistributedSampler) (st : proc) :
  sampler__iter__ w s st = (Ok (order_for (randperm w) s), st).
Proof. reflexivity. Qed.

(** C6: the permutation is drawn from a generator that was seeded with the
    epoch and with nothing else.  Two processes that run the same
    generator algorithm therefore get the same order for the same rank and
    epoch, whatever state their new generators start in, whatever their
    default generators hold, whatever happened before, and whatever epoch
    the sampler held before; the order is that of the permutation for the
    seed [epoch]; and iterating does not touch the process state, so two
    calls in a row return the same order. *)
Theorem sampler_order_deterministic (w1 w2 : World)
    (total_samples world_size r e before1 before2 : nat)
    (st1 st2 : proc) :
  (forall g n, randperm w1 g n = randperm w2 g n) ->
  let s1 := set_epoch (mkSampler total_samples world_size r before1) e in
  let s2 := set_epoch (mkSampler total_samples world_size r before2) e in
  fst (sampler__iter__ w1 s1 st1) = fst (sampler__iter__ w2 s2 st2) /\
  fst (sampler__iter__ w1 s1 st1) =
    Ok (slice (r * ceil_div total_samples world_size)
              ((r + 1) * ceil_div total_samples world_size)
              (pad_to (ceil_div total_samples world_size * world_size)
                      (randperm w1 e total_samples))) /\
  snd (sampler__iter__ w1 s1 st1) = st1 /\
  exists order,
    (o1 <- sampler__iter__ w1 s1 ;;
     o2 <- sampler__iter__ w1 s1 ;;
     ret (o1, o2)) st1 = (Ok (order, order), st1).
Proof.
  intros Hprng s1 s2.
  split; [|split; [reflexivity|split; [reflexivity|]]].
  - rewrite !sampler_iter_order. cbn [fst]. f_equal.
    unfold order_for, s1, s2, set_epoch.
    cbn [epoch dataset_len num_replicas rank].
    unfold total_size, num_samples.
    cbn [epoch dataset_len num_replicas rank].
    now rewrite Hprng.
  - exists (order_for (randperm w1) s1). reflexivity.
Qed.

Lemma sampler_order_deterministic_witness :
  Generator (Demo.world (Some "true") "" 3 1) initial_proc <>
    Generator (with_fresh_generator (Demo.world (Some "true") "" 3 1)
                 (fun seed => match seed with Some n => S n | None => 7 end))
              (mkProc [HvdInit] (Some 42)) /\
  fst (sampler__iter__ (Demo.world (Some "true") "" 3 1)
         (set_epoch (mkSampler 10 3 1 0) 4) initial_proc) =
  fst (sampler__iter__
         (with_fresh_generator (Demo.world (Some "true") "" 3 1)
            (fun seed => match seed with Some n => S n | None => 7 end))
         (set_epoch (mkSampler 10 3 1 9) 4) (mkProc [HvdInit] (Some 42))).
Proof.
  split; [discriminate|].
  apply (sampler_order_deterministic
           (Demo.world (Some "true") "" 3 1)
           (with_fresh_generator (Demo.world (Some "true") "" 3 1)
              (fun seed => match seed with Some n => S n | None => 7 end))
           10 3 1 4 0 9 initial_proc (mkProc [HvdInit] (Some 42))
           (fun _ _ => eq_refl)).
Defined.

Example rotate_epochs_differ :
  order_for Demo.rotate (set_epoch (DistributedSampler__init__ 10 3 0) 0) <>
  order_for Demo.rotate (set_epoch (DistributedSampler__init__ 10 3 0) 1).
Proof. discriminate. Qed.

(* ------------------------------------------------------------------ *)
(** ** Distributed optimizer *)

Section OptimizerFacts.

Context {T : Type}.
Variables (add sub mul : T -> T -> T).
Variable div_by : T -> nat -> T.
Variable of_nat : nat -> T.

Lemma map_zip_with (f : T -> T) (g : T -> T -> T) (xs ys : list T) :
  map f (zip_with g xs ys) = zip_with (fun a b => f (g a b)) xs ys.
Proof.
  revert ys. induction xs as [|x xs IH]; intros [|y ys]; simpl;
    try reflexivity.
  now rewrite IH.
Qed.

Lemma allreduce_two (g1 g2 : list T) :
  allreduce add div_by [g1; g2] =
  Some (zip_with (fun a b => div_by (add a b) 2) g1 g2).
Proof. unfold allreduce. simpl. now rewrite map_zip_with. Qed.

Lemma sgd_first_step (o : SGD) :
  momentum_buffer o = None ->
  params (sgd_step add sub mul o) =
  zip_with (fun p d => sub p (mul (lr o) d)) (params o) (grad o).
Proof. intros Hnone. unfold sgd_step. now rewrite Hnone. Qed.

Lemma zip_with_nth (f : T -> T -> T) (xs ys : list T) (i : nat) (x y : T) :
  nth_error xs i = Some x -> nth_error ys i = Some y ->
  nth_error (zip_with f xs ys) i = Some (f x y).
Proof.
  revert ys i. induction xs as [|x0 xs IH]; intros [|y0 ys] [|i];
    simpl; try discriminate.
  - intros Hx Hy. now injection Hx as ->; injection Hy as ->.
  - apply IH.
Qed.

Lemma zip_with_length (f : T -> T -> T) (xs ys : list T) :
  List.length (zip_with f xs ys) = Nat.min (List.length xs) (List.length ys).
Proof.
  revert ys. induction xs as [|x xs IH]; intros [|y ys]; simpl;
    try reflexivity.
  now rewrite IH.
Qed.

Lemma distributed_step_two (o1 o2 : SGD) :
  distributed_step add sub mul div_by [o1; o2] =
  [sgd_step add sub mul
     (backward o1 (zip_with (fun a b => div_by (add a b) 2)
                            (grad o1) (grad o2)));
   sgd_step add sub mul
     (backward o2 (zip_with (fun a b => div_by (add a b) 2)
                            (grad o1) (grad o2)))].
Proof.
  unfold distributed_step.
  change (map grad [o1; o2]) with [grad o1; grad o2].
  now rewrite allreduce_two.
Qed.

(** C3: on two replicas holding the same parameters, one step of the
    distributed optimizer with gradients [g1] and [g2] leaves every
    replica, at every position of the parameter tensor, with
    [param - lr * ((g1 + g2) / 2)], where [lr] is the rate the optimizer
    was built with, [_LR * 2]: the gradients are summed, averaged and only
    then applied.  The tensor keeps its shape. *)
Theorem distributed_step_averages_two_replicas
    (_LR momentum : T) (param g1 g2 : list T) (i : nat) (p a b : T) :
  nth_error param i = Some p ->
  nth_error g1 i = Some a ->
  nth_error g2 i = Some b ->
  let optimizer := make_optimizer mul of_nat _LR momentum 2 param in
  let after :=
    distributed_step add sub mul div_by
      [backward optimizer g1; backward optimizer g2] in
  List.length after = 2 /\
  (forall o, In o after ->
     nth_error (params o) i =
       Some (sub p (mul (mul _LR (of_nat 2)) (div_by (add a b) 2)))) /\
  (List.length g1 = List.length param ->
   List.length g2 = List.length param ->
   forall o, In o after -> List.length (params o) = List.length param).
Proof.
  intros Hp Ha Hb optimizer after. subst after.
  rewrite distributed_step_two.
  split; [reflexivity|]. split.
  - intros o [<-|[<-|[]]]; rewrite sgd_first_step by reflexivity;
      unfold optimizer, make_optimizer;
      cbn [params lr backward grad];
      (apply (zip_with_nth (fun p d => sub p (mul (mul _LR (of_nat 2)) d)));
       [exact Hp|]);
      now apply (zip_with_nth (fun a b => div_by (add a b) 2)).
  - intros H1 H2 o [<-|[<-|[]]]; rewrite sgd_first_step by reflexivity;
      unfold optimizer, make_optimizer;
      cbn [params lr backward grad];
      rewrite !zip_with_length; lia.
Qed.

End OptimizerFacts.

(** The same step computed over the rationals, with the script's base rate
    [_LR = 0.001] scaled by the two replicas. *)
Example distributed_step_rationals :
  map (fun o => map Qreduction.Qred (params o))
      (distributed_step QArith_base.Qplus QArith_base.Qminus
         QArith_base.Qmult Demo.q_div_by
         (let o := make_optimizer QArith_base.Qmult Demo.q_of_nat
                     (Demo.q 1 1000) (Demo.q 9 10) 2
                     [Demo.q 1 1; Demo.q 2 1] in
          [backward o [Demo.q 1 2; Demo.q 1 1];
           backward o [Demo.q 3 2; Demo.q 3 1]])) =
  [[Demo.q 499 500; Demo.q 499 250]; [Demo.q 499 500; Demo.q 499 250]].
Proof. vm_compute. reflexivity. Qed.

Lemma distributed_step_averages_two_replicas_witness :
  let o := make_optimizer QArith_base.Qmult Demo.q_of_nat
             (Demo.q 1 1000) (Demo.q 9 10) 2 [Demo.q 1 1; Demo.q 2 1] in
  let after :=
    distributed_step QArith_base.Qplus QArith_base.Qminus QArith_base.Qmult
      Demo.q_div_by
      [backward o [Demo.q 1 2; Demo.q 1 1];
       backward o [Demo.q 3 2; Demo.q 3 1]] in
  Forall (fun replica =>
            option_map Qreduction.Qred (nth_error (params replica) 1) =
            Some (Demo.q 499 250)) after /\
  Qreduction.Qred
    (QArith_base.Qminus (Demo.q 2 1)
       (QArith_base.Qmult
          (QArith_base.Qmult (Demo.q 1 1000) (Demo.q_of_nat 2))
          (Demo.q_div_by (QArith_base.Qplus (Demo.q 1 1) (Demo.q 3 1)) 2))) =
  Demo.q 499 250.
Proof.
  intros o after. split; [|vm_compute; reflexivity].
  destruct (distributed_step_averages_two_replicas
              QArith_base.Qplus QArith_base.Qminus QArith_base.Qmult
              Demo.q_div_by Demo.q_of_nat
              (Demo.q 1 1000) (Demo.q 9 10) [Demo.q 1 1; Demo.q 2 1]
              [Demo.q 1 2; Demo.q 1 1] [Demo.q 3 2; Demo.q 3 1]
              1 (Demo.q 2 1) (Demo.q 1 1) (Demo.q 3 1)
              eq_refl eq_refl eq_refl) as (_ & Hvalue & _).
  apply Forall_forall. intros replica Hin.
  rewrite (Hvalue replica Hin). vm_compute. reflexivity.
Defined.

(* ------------------------------------------------------------------ *)
(** ** Training engine: order of broadcast and steps *)

Lemma not_started_snoc (tr : list event) (e : event) :
  is_broadcast e = false -> is_step e = false ->
  not_started tr -> not_started (tr ++ [e]).
Proof.
  intros Hb Hs Htr x Hin. apply in_app_iff in Hin as [Hin|[<-|[]]]; auto.
Qed.

Lemma synchronized_snoc (tr : list event) (e : event) :
  is_broadcast e = false -> synchronized tr -> synchronized (tr ++ [e]).
Proof.
  intros Hb (pre & post & -> & Hpre & Hpost).
  exists pre, (post ++ [e]). split; [|split; [assumption|]].
  - now rewrite <- app_assoc.
  - intros x Hin. apply in_app_iff in Hin as [Hin|[<-|[]]]; auto.
Qed.

Lemma synchronized_intro (tr : list event) :
  not_started tr -> synchronized (tr ++ [BroadcastParameters 0]).
Proof.
  intros Htr. exists tr, []. split; [reflexivity|]. split; [assumption|].
  intros e [].
Qed.

Section Keeps.

Variable I : list event -> Prop.

Lemma keeps_ret {A} (a : A) : keeps I (ret a).
Proof. intros st H. exact H. Qed.

Lemma keeps_raise {A} (e : exn) : keeps I (@raise A e).
Proof. intros st H. exact H. Qed.

Lemma keeps_lift {A} (r : result A) : keeps I (lift r).
Proof. intros st H. exact H. Qed.

Lemma keeps_bind {A B} (m : M A) (k : A -> M B) :
  keeps I m -> (forall a, keeps I (k a)) -> keeps I (bind m k).
Proof.
  intros Hm Hk st H. unfold bind.
  specialize (Hm st H). destruct (m st) as [[a|e] st']; simpl in *.
  - now apply Hk.
  - assumption.
Qed.

Lemma keeps_emit (e : event) :
  (forall tr, I tr -> I (tr ++ [e])) -> keeps I (emit e).
Proof. intros He st H. simpl. now apply He. Qed.

Lemma keeps_manual_seed (seed : nat) :
  (forall tr, I tr -> I (tr ++ [ManualSeed seed])) ->
  keeps I (manual_seed seed).
Proof. intros He st H. simpl. now apply He. Qed.

Lemma keeps_hvd (w : World) : keeps I (hvd w).
Proof.
  unfold hvd. destruct (_DISTRIBUTED w); [apply keeps_ret | apply keeps_raise].
Qed.

Lemma keeps_hvd_call {A} (h : World) (value : A) :
  keeps I (hvd_call h value).
Proof.
  intros st H. unfold hvd_call. now destruct (hvd_initialized h st).
Qed.

Lemma keeps_sampler (w : World) (s : DistributedSampler) :
  keeps I (sampler__iter__ w s).
Proof. intros st H. exact H. Qed.

Lemma keeps_if {A} (c : bool) (m1 m2 : M A) :
  keeps I m1 -> keeps I m2 -> keeps I (if c then m1 else m2).
Proof. now destruct c. Qed.

Lemma keeps_for_each {A} (l : list A) (body : A -> M unit) :
  (forall a, keeps I (body a)) -> keeps I (for_each l body).
Proof.
  intros Hbody. induction l as [|a l IH]; simpl.
  - apply keeps_ret.
  - apply keeps_bind; auto.
Qed.

End Keeps.

(** Resolve [keeps] goals for straight-line code: split at every bind and
    discharge each event against the invariant's closure lemma. *)
Ltac keeps_step closure :=
  first
    [ apply keeps_ret
    | apply keeps_raise
    | apply keeps_lift
    | apply keeps_hvd
    | apply keeps_hvd_call
    | apply keeps_sampler
    | apply keeps_emit; intros ? ?; apply closure; solve [reflexivity | assumption]
    | apply keeps_manual_seed; intros ? ?; apply closure;
      solve [reflexivity | assumption]
    | apply keeps_if
    | apply keeps_bind; [|intros ?] ].

Ltac keeps_quiet :=
  repeat keeps_step not_started_snoc.

Ltac keeps_sync :=
  repeat keeps_step synchronized_snoc.

Lemma create_data_fn_quiet (w : World) (train_path test_path : option string) :
  keeps not_started (_create_data_fn w train_path test_path).
Proof. unfold _create_data_fn. keeps_quiet. Qed.

Lemma ImageNet_init_quiet (locs : list string) (lbls : list Z)
    (tf : option (image -> result tensor)) :
  keeps not_started (ImageNet__init__ locs lbls tf).
Proof. unfold ImageNet__init__. keeps_quiet. Qed.

Lemma train_loop_sync (w : World) (ds : ImageNet) (e : nat)
    (bs : list (list nat)) :
  forall i, keeps synchronized (train_loop w ds e i bs).
Proof.
  induction bs as [|b bs IH]; intros i; cbn [train_loop].
  - apply keeps_ret.
  - unfold fetch, optimizer_step. keeps_sync. apply IH.
Qed.

Lemma train_sync (w : World) (loader : DataLoader) (e : nat) :
  keeps synchronized (train w loader e).
Proof.
  unfold train. keeps_sync. apply train_loop_sync.
Qed.

Lemma reaches_after_quiet {A B} (m : M A) (k : A -> M B) :
  keeps not_started m ->
  (forall a, reaches_broadcast (k a)) ->
  reaches_broadcast (bind m k).
Proof.
  intros Hm Hk st Hst. unfold bind.
  specialize (Hm st Hst). destruct (m st) as [[a|e] st']; simpl in *.
  - now apply Hk.
  - right. split; [assumption | reflexivity].
Qed.

Lemma reaches_at_broadcast {B} (k : unit -> M B) :
  (forall a, keeps synchronized (k a)) ->
  reaches_broadcast (bind (emit (BroadcastParameters 0)) k).
Proof.
  intros Hk st Hst. left. unfold bind, emit.
  apply Hk. simpl. now apply synchronized_intro.
Qed.

Lemma main_init_quiet (w : World) :
  keeps not_started
    (if _DISTRIBUTED w then
       emit (Log "Runnin Distributed") ;;
       h <- hvd w ;;
       emit HvdInit ;;
       lift (hvd_init h) ;;
       manual_seed _SEED ;;
       h <- hvd w ;;
       local_rank <- hvd__local_rank h ;;
       emit (CudaSetDevice local_rank) ;;
       emit (CudaManualSeed _SEED)
     else ret tt).
Proof. unfold hvd__local_rank. keeps_quiet. Qed.

Lemma main_reaches_broadcast (w : World) : reaches_broadcast (main w).
Proof.
  unfold main.
  apply reaches_after_quiet; [apply main_init_quiet | intros _].
  apply reaches_after_quiet; [keeps_quiet | intros _].
  apply reaches_after_quiet; [apply create_data_fn_quiet |].
  intros [[[train_X train_y] valid_X] valid_y].
  apply reaches_after_quiet; [keeps_quiet | intros _].
  apply reaches_after_quiet; [apply ImageNet_init_quiet | intros ds].
  apply reaches_after_quiet; [keeps_quiet | intros h1].
  apply reaches_after_quiet; [apply keeps_hvd_call | intros size].
  apply reaches_after_quiet; [keeps_quiet | intros h2].
  apply reaches_after_quiet; [apply keeps_hvd_call | intros rank].
  apply reaches_after_quiet; [keeps_quiet | intros _].
  apply reaches_after_quiet; [keeps_quiet | intros _].
  apply reaches_after_quiet; [keeps_quiet | intros h3].
  apply reaches_at_broadcast. intros _.
  apply keeps_bind; [apply keeps_lift | intros _].
  apply keeps_bind; [apply keeps_hvd | intros h4].
  apply keeps_bind; [apply keeps_hvd_call | intros _].
  apply keeps_bind; [apply keeps_hvd | intros _].
  apply keeps_for_each. intros e.
  apply keeps_bind; [keeps_sync | intros _].
  apply keeps_bind; [keeps_sync | intros _].
  apply train_sync.
Qed.

Lemma not_started_counts (tr : list event) :
  not_started tr -> filter is_broadcast tr = [] /\ ~ In OptimizerStep tr.
Proof.
  intros Htr. split.
  - induction tr as [|e tr IH]; [reflexivity|]. simpl.
    destruct (Htr e (or_introl eq_refl)) as [-> _].
    apply IH. intros x Hx. apply Htr. now right.
  - intros Hin. destruct (Htr _ Hin) as [_ Hs]. discriminate.
Qed.

Lemma no_broadcast_filter (tr : list event) :
  (forall e, In e tr -> is_broadcast e = false) ->
  filter is_broadcast tr = [].
Proof.
  induction tr as [|e tr IH]; intros H; [reflexivity|]. simpl.
  rewrite (H e (or_introl eq_refl)). apply IH.
  intros x Hx. apply H. now right.
Qed.

Lemma synchronized_once (tr : list event) :
  synchronized tr -> broadcasts tr = 1.
Proof.
  intros (pre & post & -> & Hpre & Hpost). unfold broadcasts.
  rewrite filter_app. simpl.
  rewrite (proj1 (not_started_counts pre Hpre)), (no_broadcast_filter post Hpost).
  reflexivity.
Qed.

Lemma synchronized_step_after (tr pre post : list event) :
  synchronized tr -> tr = pre ++ OptimizerStep :: post ->
  In (BroadcastParameters 0) pre.
Proof.
  intros (p & q & -> & Hp & Hq) Heq.
  apply app_eq_app in Heq as [l [[Hl1 Hl2]|[Hl1 Hl2]]].
  - (* the step would sit at or before the broadcast *)
    destruct l as [|x l]; simpl in Hl2.
    + discriminate.
    + injection Hl2 as <- _. subst p.
      destruct (Hp OptimizerStep) as [_ Hs]; [|discriminate].
      apply in_app_iff. right. now left.
  - destruct l as [|x l]; simpl in Hl2.
    + discriminate.
    + injection Hl2 as <- _. subst pre.
      apply in_app_iff. right. now left.
Qed.

(** C5: in every execution of [main] there is at most one
    [broadcast_parameters] call, it is from rank 0, and every optimizer
    step comes after it; an execution that completes, or that gets as far
    as one optimizer step, has exactly one. *)
Theorem broadcast_once_before_any_step (w : World) :
  let r := fst (run (main w)) in
  let tr := snd (run (main w)) in
  broadcasts tr <= 1 /\
  (forall pre post, tr = pre ++ OptimizerStep :: post ->
                    In (BroadcastParameters 0) pre) /\
  (is_ok r = true \/ In OptimizerStep tr -> broadcasts tr = 1).
Proof.
  intros r tr. subst r tr. unfold run.
  pose proof (main_reaches_broadcast w initial_proc) as Hmain.
  destruct (main w initial_proc) as [r st]. simpl in *.
  specialize (Hmain (fun e H => match H with end)).
  destruct Hmain as [Hsync|[Hquiet Herr]].
  - split; [now rewrite (synchronized_once _ Hsync)|].
    split; [|intros _; now apply synchronized_once].
    intros pre post Heq. eapply synchronized_step_after; eassumption.
  - destruct (not_started_counts _ Hquiet) as [Hnone Hnostep].
    split; [unfold broadcasts; rewrite Hnone; simpl; lia|].
    split.
    + intros pre post Heq. exfalso. apply Hnostep. rewrite Heq.
      apply in_app_iff. right. now left.
    + intros [Hok|Hin]; [congruence | contradiction].
Qed.

Lemma broadcast_once_before_any_step_witness :
  broadcasts (snd (run (main (Demo.world (Some "true") "" 2 1)))) = 1.
Proof.
  apply (broadcast_once_before_any_step (Demo.world (Some "true") "" 2 1)).
  left. vm_compute. reflexivity.
Defined.

Example main_distributed_trace :
  run (main (Demo.world (Some "true") "" 2 1)) =
  (Ok tt,
   [Log "Runnin Distributed"; HvdInit; ManualSeed 42; CudaSetDevice 1;
    CudaManualSeed 42; Log "PyTorch version";
    Log "Reading training data info"; Log "Reading validation data info";
    Log "Setting up loaders"; LogLoaded 3 3; Log "Loading model"; ModelCuda;
    BroadcastParameters 0; ModelTrain; SetEpoch 0; Log "Training ...";
    ZeroGrad;
    Forward [(TensorOf [0; 22]%Z, 999%Z); (TensorOf [0; 22]%Z, 0%Z)];
    Backward; OptimizerStep; LogTrain 0 0]).
Proof. vm_compute. reflexivity. Qed.

(* ------------------------------------------------------------------ *)
(** ** Single-replica mode *)

Lemma is_master_single (w : World) (st : proc) :
  _is_master w false st = (Ok true, st).
Proof. reflexivity. Qed.

(** Without the DISTRIBUTED flag the name [hvd] is unbound, and [main]
    uses it unguarded when it builds the sampler: no run completes, and
    none gets as far as the broadcast or a step. *)
Lemma main_not_distributed_fails (w : World) :
  _DISTRIBUTED w = false ->
  is_ok (fst (run (main w))) = false /\
  not_started (snd (run (main w))) /\
  (is_ok (fst (_create_data_fn w (getenv w "AZ_BATCHAI_INPUT_TRAIN")
                 (getenv w "AZ_BATCHAI_INPUT_TEST")
                 (mkProc [Log "PyTorch version"] None))) = true ->
   fst (run (main w)) = Err (NameError "hvd")).
Proof.
  intros Hd.
  pose proof (create_data_fn_quiet w (getenv w "AZ_BATCHAI_INPUT_TRAIN")
                (getenv w "AZ_BATCHAI_INPUT_TEST")
                (mkProc [Log "PyTorch version"] None)) as Hquiet.
  unfold run, main, hvd. rewrite Hd.
  cbv [bind ret emit raise lift ImageNet__init__ initial_proc
       trace default_generator app] in *.
  destruct (_create_data_fn w _ _ _) as [[[[[tX ty] vX] vy]|e] st'];
    simpl in *.
  - split; [reflexivity|]. split; [|reflexivity].
    repeat (apply not_started_snoc; [reflexivity | reflexivity |]).
    apply Hquiet. intros x [<-|[]]. split; reflexivity.
  - split; [reflexivity|]. split; [|discriminate].
    apply Hquiet. intros x [<-|[]]. split; reflexivity.
Qed.

(** C4 (what the code does): with DISTRIBUTED unset, so in single-replica
    mode, [_is_master] answers true, but [main] stops with
    [NameError: hvd] where it builds the sampler, after the manifests have
    loaded: no sampler order is produced, nothing is broadcast and no
    step runs. *)
Theorem main_single_replica_name_error :
  let w := Demo.world None "" 1 0 in
  _DISTRIBUTED w = false /\
  run (_is_master w (_DISTRIBUTED w)) = (Ok true, []) /\
  run (main w) =
  (Err (NameError "hvd"),
   [Log "PyTorch version"; Log "Reading training data info";
    Log "Reading validation data info"; Log "Setting up loaders";
    LogLoaded 3 3]).
Proof. repeat split. Qed.

(* ------------------------------------------------------------------ *)
(** ** The validation index is not consumed *)

Section Agree.

Lemma agree_bind {A1 A2 B1 B2} (R : A1 -> A2 -> Prop)
    (S : B1 -> B2 -> Prop) (m1 : M A1) (m2 : M A2)
    (k1 : A1 -> M B1) (k2 : A2 -> M B2) :
  agree R m1 m2 ->
  (forall a1 a2, R a1 a2 -> agree S (k1 a1) (k2 a2)) ->
  agree S (bind m1 k1) (bind m2 k2).
Proof.
  intros Hm Hk st. unfold bind.
  destruct (Hm st) as [Hst Hr].
  destruct (m1 st) as [[a1|e1] s1], (m2 st) as [[a2|e2] s2];
    simpl in *; subst; try contradiction.
  - now apply Hk.
  - auto.
Qed.

Lemma agree_same {A} (m : M A) : agree eq m m.
Proof. intros st. split; [reflexivity|]. now destruct (fst (m st)). Qed.

Lemma agree_weaken {A B} (R S : A -> B -> Prop) (m1 : M A) (m2 : M B) :
  (forall a b, R a b -> S a b) -> agree R m1 m2 -> agree S m1 m2.
Proof.
  intros HRS Hm st. destruct (Hm st) as [Hst Hr]. split; [assumption|].
  destruct (fst (m1 st)), (fst (m2 st)); auto.
Qed.

Lemma agree_eq {A} (m1 m2 : M A) :
  agree eq m1 m2 -> forall st, m1 st = m2 st.
Proof.
  intros Hm st. destruct (Hm st) as [Hst Hr].
  destruct (m1 st) as [[a1|e1] s1], (m2 st) as [[a2|e2] s2];
    simpl in *; subst; try contradiction; reflexivity.
Qed.

Lemma agree_for_each {A} (l : list A) (body1 body2 : A -> M unit) :
  (forall a, agree eq (body1 a) (body2 a)) ->
  agree eq (for_each l body1) (for_each l body2).
Proof.
  intros Hbody. induction l as [|a l IH]; simpl.
  - apply agree_same.
  - eapply agree_bind; [apply Hbody | intros _ _ _; exact IH].
Qed.

End Agree.

Lemma list_ascii_app (s1 s2 : string) :
  list_ascii_of_string (s1 ++ s2) =
  list_ascii_of_string s1 ++ list_ascii_of_string s2.
Proof. induction s1 as [|c s1 IH]; simpl; [reflexivity | now rewrite IH]. Qed.

Lemma path_join_suffix (a b : string) :
  exists pre, path_join a b = (pre ++ b)%string.
Proof.
  unfold path_join. destruct (startswith "/" b).
  - now exists "".
  - destruct ((a =? "")%string || endswith_char "/" a).
    + now exists a.
    + exists (a ++ "/")%string.
      clear. induction a as [|c a IH]; simpl in *; [reflexivity | now f_equal].
Qed.

(** The two manifests of a run are different files. *)
Lemma manifests_differ (train_dir test_dir : string) :
  path_join train_dir "train.csv" <> path_join test_dir "validation.csv".
Proof.
  destruct (path_join_suffix train_dir "train.csv") as [p1 ->].
  destruct (path_join_suffix test_dir "validation.csv") as [p2 ->].
  intros Heq. apply (f_equal list_ascii_of_string) in Heq.
  rewrite !list_ascii_app in Heq.
  apply (f_equal (@rev ascii)) in Heq.
  rewrite !rev_app_distr in Heq. simpl in Heq.
  discriminate Heq.
Qed.

Section ValidationUnused.

Variable w : World.
Variable test_dir : string.
Variables df1 df2 : DataFrame.
Hypothesis test_dir_set : getenv w "AZ_BATCHAI_INPUT_TEST" = Some test_dir.
Hypothesis df1_loads : loadable df1 = true.
Hypothesis df2_loads : loadable df2 = true.

Local Abbreviation manifest := (path_join test_dir "validation.csv").
Local Abbreviation w1 := (with_manifest w manifest df1).
Local Abbreviation w2 := (with_manifest w manifest df2).

Lemma hvd_agree : agree same_hvd (hvd w1) (hvd w2).
Proof.
  intros st. unfold hvd.
  change (_DISTRIBUTED w1) with (_DISTRIBUTED w).
  change (_DISTRIBUTED w2) with (_DISTRIBUTED w).
  destruct (_DISTRIBUTED w); simpl; repeat split.
Qed.

Lemma load_training_same (train_path : option string) :
  _load_training w1 train_path = _load_training w2 train_path.
Proof.
  unfold _load_training, load_split.
  destruct train_path as [d|]; simpl; [|reflexivity].
  pose proof (manifests_differ d test_dir) as Hne.
  apply String.eqb_neq in Hne.
  now rewrite Hne.
Qed.

Lemma create_data_agree (train_path : option string) :
  agree same_train
    (_create_data_fn w1 train_path (Some test_dir))
    (_create_data_fn w2 train_path (Some test_dir)).
Proof.
  intros st. unfold _create_data_fn, _load_validation, load_split.
  rewrite load_training_same. simpl.
  rewrite String.eqb_refl.
  cbv [bind lift emit ret]. simpl.
  destruct (_load_training w2 train_path) as [[tn ti]|e]; simpl;
    [|split; reflexivity].
  destruct df1 as [[n1|] [i1|]]; try discriminate df1_loads.
  destruct df2 as [[n2|] [i2|]]; try discriminate df2_loads.
  simpl.
  destruct tn as [tn|]; simpl; [|split; reflexivity].
  destruct ti as [ti|]; simpl; repeat split.
Qed.

(** [hvd] hands back the world it was asked in. *)
Lemma hvd_agree_handles :
  agree (fun h1 h2 => h1 = w1 /\ h2 = w2) (hvd w1) (hvd w2).
Proof.
  intros st. unfold hvd.
  change (_DISTRIBUTED w1) with (_DISTRIBUTED w).
  change (_DISTRIBUTED w2) with (_DISTRIBUTED w).
  destruct (_DISTRIBUTED w); simpl; repeat split.
Qed.

Ltac agree_same_step :=
  eapply agree_bind; [apply agree_same | intros ? ? <-].

Ltac agree_hvd_step :=
  eapply agree_bind; [apply hvd_agree_handles | intros ? ? [-> ->]].

Lemma train_loop_agree (ds : ImageNet) (e : nat) (bs : list (list nat)) :
  forall i,
    agree eq (train_loop w1 ds e i bs) (train_loop w2 ds e i bs).
Proof.
  induction bs as [|b bs IH]; intros i; cbn [train_loop].
  - apply agree_same.
  - do 10 agree_same_step. apply IH.
Qed.

Lemma train_agree (loader : DataLoader) (e : nat) :
  agree eq (train w1 loader e) (train w2 loader e).
Proof.
  unfold train. do 2 agree_same_step. apply train_loop_agree.
Qed.

Lemma main_agree : agree eq (main w1) (main w2).
Proof.
  unfold main.
  change (_DISTRIBUTED w1) with (_DISTRIBUTED w).
  change (_DISTRIBUTED w2) with (_DISTRIBUTED w).
  change (getenv w1) with (getenv w).
  change (getenv w2) with (getenv w).
  rewrite test_dir_set.
  eapply agree_bind.
  { destruct (_DISTRIBUTED w); [|apply agree_same].
    agree_same_step. agree_hvd_step. do 3 agree_same_step.
    agree_hvd_step. do 2 agree_same_step. apply agree_same. }
  intros _ _ _.
  agree_same_step.
  eapply agree_bind; [apply create_data_agree |].
  intros [[[tX1 ty1] vX1] vy1] [[[tX2 ty2] vX2] vy2] [<- <-].
  do 2 agree_same_step.
  agree_hvd_step. agree_same_step.
  agree_hvd_step. agree_same_step.
  do 2 agree_same_step.
  agree_hvd_step. do 2 agree_same_step.
  agree_hvd_step. agree_same_step.
  agree_hvd_step.
  apply agree_for_each. intros e.
  do 2 agree_same_step.
  apply train_agree.
Qed.

End ValidationUnused.

Lemma create_data_validation_part (w : World)
    (train_path : option string) (test_dir : string)
    (names : list string) (ids : list Z) (st st' : proc)
    (train_X valid_X : list string) (train_y valid_y : list Z) :
  read_csv w (path_join test_dir "validation.csv") =
    Ok (mkDataFrame (Some names) (Some ids)) ->
  _create_data_fn w train_path (Some test_dir) st =
    (Ok (train_X, train_y, valid_X, valid_y), st') ->
  valid_X = _append_path_to (path_join test_dir "validation") names /\
  valid_y = minus_one ids.
Proof.
  intros Hcsv. unfold _create_data_fn, _load_validation, load_split.
  simpl. rewrite Hcsv. cbv [bind lift emit ret]. simpl.
  destruct (_load_training w train_path) as [[tn ti]|e]; simpl;
    [|discriminate].
  destruct tn as [tn|]; simpl; [|discriminate].
  destruct ti as [ti|]; simpl; [|discriminate].
  intros Heq. injection Heq as _ _ <- <- _. split; reflexivity.
Qed.

(** C10: the validation index is built from the validation manifest, and
    nothing reads it afterwards: two runs of [main] that differ only in
    the contents of a validation manifest that loads end in the same
    outcome with the same trace of events, from any process state. *)
Theorem validation_manifest_not_consumed (w : World) (test_dir : string)
    (df1 df2 : DataFrame) (st : proc) :
  getenv w "AZ_BATCHAI_INPUT_TEST" = Some test_dir ->
  loadable df1 = true ->
  loadable df2 = true ->
  let manifest := path_join test_dir "validation.csv" in
  main (with_manifest w manifest df1) st =
  main (with_manifest w manifest df2) st /\
  (forall names ids train_X train_y valid_X valid_y st',
      df1 = mkDataFrame (Some names) (Some ids) ->
      _create_data_fn (with_manifest w manifest df1)
        (getenv w "AZ_BATCHAI_INPUT_TRAIN") (Some test_dir) st =
        (Ok (train_X, train_y, valid_X, valid_y), st') ->
      valid_X = _append_path_to (path_join test_dir "validation") names /\
      valid_y = minus_one ids).
Proof.
  intros Henv H1 H2 manifest. subst manifest. split.
  - apply agree_eq. now apply main_agree.
  - intros names ids tX ty vX vy st' -> Hrun.
    eapply create_data_validation_part; [|exact Hrun].
    simpl. now rewrite String.eqb_refl.
Qed.

Lemma validation_manifest_not_consumed_witness :
  main (with_manifest (Demo.world (Some "true") "" 2 1)
          (path_join "/data" "validation.csv") Demo.validation_manifest)
       initial_proc =
  main (with_manifest (Demo.world (Some "true") "" 2 1)
          (path_join "/data" "validation.csv")
          Demo.other_validation_manifest)
       initial_proc.
Proof.
  apply (validation_manifest_not_consumed
           (Demo.world (Some "true") "" 2 1) "/data"
           Demo.validation_manifest Demo.other_validation_manifest
           initial_proc eq_refl eq_refl eq_refl).
Defined.

Example validation_index_is_loaded :
  fst (run (_create_data_fn (Demo.world (Some "true") "" 2 1)
              (Some "/data") (Some "/data"))) =
  Ok (["/data/train/n01/a.JPEG"; "/data/train/n02/b.JPEG";
       "/data/train/n02/c.JPEG"],
      [0; 1; 999]%Z,
      ["/data/validation/v0.JPEG"; "/data/validation/v1.JPEG"],
      [6; 0]%Z).
Proof. reflexivity. Qed.

(* ================================================================== *)
(** * Further properties of the script *)

(* ------------------------------------------------------------------ *)
(** ** Flag parsing and paths *)

Lemma lower_char_t (c : ascii) :
  lower_char c = "t"%char <-> c = "t"%char \/ c = "T"%char.
Proof.
  destruct c as [[] [] [] [] [] [] [] []]; vm_compute;
    split; try discriminate; auto;
    intros [H|H]; discriminate H.
Qed.

Lemma In_lower (c : ascii) (s : string) :
  In c (list_ascii_of_string (lower s)) <->
  exists d, In d (list_ascii_of_string s) /\ lower_char d = c.
Proof.
  induction s as [|x s IH]; simpl.
  - split; [tauto | intros (d & [] & _)].
  - rewrite IH. split.
    + intros [Hx|(d & Hd & Hl)]; [exists x | exists d]; auto.
    + intros (d & [<-|Hd] & Hl); [left | right; exists d]; auto.
Qed.

(** X1: The DISTRIBUTED flag is read case-insensitively and by one letter
    only: [_str_to_bool s] holds exactly when [s] contains a [t] or a
    [T]. *)
Theorem str_to_bool_iff_contains_t_or_T (s : string) :
  _str_to_bool s = true <->
  In "t"%char (list_ascii_of_string s) \/
  In "T"%char (list_ascii_of_string s).
Proof.
  unfold _str_to_bool.
  assert (Hin : str_in "t" (lower s) = true <->
                In "t"%char (list_ascii_of_string (lower s)))
    by apply str_in_char.
  rewrite In_lower in Hin.
  destruct (str_in "t" (lower s)).
  - split; [intros _|reflexivity].
    destruct (proj1 Hin eq_refl) as (d & Hd & Hl).
    apply lower_char_t in Hl as [->| ->]; auto.
  - split; [discriminate|]. intros Hor. apply Hin.
    destruct Hor as [H|H]; eexists; (split; [exact H | reflexivity]).
Qed.

Lemma prefix_app (s t : string) : prefix s (s ++ t) = true.
Proof.
  induction s as [|c s IH]; simpl.
  - now destruct t.
  - destruct (ascii_dec c c); [exact IH | congruence].
Qed.

(** X2: A manifest row with an absolute file name escapes the data root: the
    loaded path is the name itself.  Every other name is loaded under the
    root: the path starts with the root and ends with the name, with at
    most one separator in between. *)
Theorem append_path_to_absolute_or_under_root (root : string)
    (names : list string) (i : nat) (name : string) :
  nth_error names i = Some name ->
  exists p,
    nth_error (_append_path_to root names) i = Some p /\
    (startswith "/" name = true -> p = name) /\
    (startswith "/" name = false ->
       prefix root p = true /\
       (p = (root ++ name)%string \/ p = (root ++ "/" ++ name)%string)).
Proof.
  intros Hi. exists (path_join root name).
  split; [unfold _append_path_to; now rewrite (map_nth_error _ _ _ Hi)|].
  unfold path_join. split; intros Habs; rewrite Habs; [reflexivity|].
  destruct ((root =? "")%string || endswith_char "/" root);
    (split; [apply prefix_app | auto]).
Qed.

Lemma append_path_to_absolute_or_under_root_witness :
  nth_error (_append_path_to "/data/train" ["/tmp/x.JPEG"; "n01/a.JPEG"]) 0 =
    Some "/tmp/x.JPEG" /\
  nth_error (_append_path_to "/data/train" ["/tmp/x.JPEG"; "n01/a.JPEG"]) 1 =
    Some "/data/train/n01/a.JPEG".
Proof.
  destruct (append_path_to_absolute_or_under_root "/data/train"
              ["/tmp/x.JPEG"; "n01/a.JPEG"] 0 "/tmp/x.JPEG" eq_refl)
    as (p & Hp & Habs & _).
  rewrite Hp, (Habs eq_refl). split; reflexivity.
Defined.

(* ------------------------------------------------------------------ *)
(** ** Label arithmetic *)

(** X3: [labels -= 1] on an int64 column stays in the int64 range and loses
    nothing: adding one back, again with wrap-around, returns the class id.
    It is [k - 1] for every id but the smallest int64, which wraps to the
    largest. *)
Theorem minus_one_int64 (k : Z) :
  (- 2 ^ 63 <= k < 2 ^ 63)%Z ->
  (- 2 ^ 63 <= wrap64 (k - 1) < 2 ^ 63)%Z /\
  wrap64 (wrap64 (k - 1) + 1) = k /\
  (k <> (- 2 ^ 63)%Z -> wrap64 (k - 1) = (k - 1)%Z) /\
  (k = (- 2 ^ 63)%Z -> wrap64 (k - 1) = (2 ^ 63 - 1)%Z).
Proof.
  intros Hk.
  assert (Hwrap : forall z, (- 2 ^ 63 <= z < 2 ^ 63)%Z -> wrap64 z = z).
  { intros z Hz. unfold wrap64. rewrite Z.mod_small; lia. }
  destruct (Z.eq_dec k (- 2 ^ 63)) as [->|Hne].
  - repeat split; try reflexivity; try (vm_compute; congruence);
      intros Hne; now contradiction Hne.
  - rewrite (Hwrap (k - 1)%Z) by lia.
    replace (k - 1 + 1)%Z with k by lia. rewrite (Hwrap k Hk).
    repeat split; lia.
Qed.

Lemma minus_one_int64_witness :
  minus_one [0; 1; (- 2 ^ 63)]%Z = [-1; 0; 2 ^ 63 - 1]%Z /\
  wrap64 (wrap64 (0 - 1) + 1) = 0%Z.
Proof.
  split; [reflexivity|].
  apply (minus_one_int64 0 ltac:(lia)).
Defined.

(* ------------------------------------------------------------------ *)
(** ** Manifest loading: order of failures *)

(** X4: A failure while loading the training manifest ends
    [_create_data_fn] at once with that exception: only the first progress
    line has been logged and the validation manifest is never looked at.
    An unset training directory is such a failure, a [TypeError] from
    [path.join]. *)
Theorem create_data_fn_training_failure_first (w : World)
    (train_path test_path : option string) (e : exn) (st : proc) :
  _load_training w train_path = Err e ->
  _create_data_fn w train_path test_path st =
    (Err e, mkProc (trace st ++ [Log "Reading training data info"])
                   (default_generator st)) /\
  exists msg, _load_training w None = Err (TypeError msg).
Proof.
  intros Hload. split.
  - unfold _create_data_fn. cbv [bind lift emit ret]. now rewrite Hload.
  - eexists. reflexivity.
Qed.

Lemma create_data_fn_training_failure_first_witness :
  exists msg,
    run (_create_data_fn (Demo.world (Some "true") "" 2 0) None
                         (Some "/data")) =
    (Err (TypeError msg), [Log "Reading training data info"]).
Proof.
  eexists.
  destruct (create_data_fn_training_failure_first
              (Demo.world (Some "true") "" 2 0) None (Some "/data") _
              initial_proc eq_refl) as [Hrun _].
  unfold run. rewrite Hrun. reflexivity.
Defined.

Lemma load_split_filenames (w : World) (dir : option string)
    (csv subdir : string) (df : DataFrame) :
  load_split w dir csv subdir = Ok df -> df_filenames df <> None.
Proof.
  unfold load_split. destruct dir as [d|]; simpl; [|discriminate].
  destruct (read_csv w (path_join d csv)) as [raw|]; simpl; [|discriminate].
  destruct (col_filenames raw); simpl; [|discriminate].
  intros Heq. injection Heq as <-. discriminate.
Qed.

(** X5: A training manifest without the [num_id] column is noticed late: the
    [KeyError], which carries pandas' sentence about the missing column,
    is raised only after the validation manifest was loaded too, and a
    validation manifest that fails to load takes precedence with its own
    exception. *)
Theorem create_data_fn_missing_num_id_is_deferred (w : World)
    (train_dir : string) (test_path : option string)
    (names : list string) (st : proc) :
  read_csv w (path_join train_dir "train.csv") =
    Ok (mkDataFrame (Some names) None) ->
  let logged :=
    mkProc (trace st ++ [Log "Reading training data info";
                         Log "Reading validation data info"])
           (default_generator st) in
  (forall e, _load_validation w test_path = Err e ->
      _create_data_fn w (Some train_dir) test_path st = (Err e, logged)) /\
  (forall df, _load_validation w test_path = Ok df ->
      _create_data_fn w (Some train_dir) test_path st =
        (Err (KeyError (keyerror_text w "num_id")), logged)).
Proof.
  intros Hcsv logged. subst logged.
  pose proof (load_split_ok w train_dir "train.csv" "train" names None Hcsv)
    as Htrain.
  split.
  - intros e Hval. unfold _create_data_fn, _load_training.
    cbv [bind lift emit ret]. rewrite Htrain, Hval. simpl.
    now rewrite <- app_assoc.
  - intros df Hval. pose proof (load_split_filenames _ _ _ _ _ Hval) as Hcol.
    unfold _create_data_fn, _load_training.
    cbv [bind lift emit ret]. rewrite Htrain, Hval. simpl.
    unfold col_filenames. destruct (df_filenames df); [|congruence].
    simpl. now rewrite <- app_assoc.
Qed.

Lemma create_data_fn_missing_num_id_is_deferred_witness :
  exists sentence,
    run (_create_data_fn
           (Faults.world Faults.csv_without_num_id (Ok tt) (Ok tt)
                         (fun _ _ => Ok tt))
           (Some "/data") (Some "/data")) =
    (Err (KeyError sentence),
     [Log "Reading training data info"; Log "Reading validation data info"]).
Proof.
  eexists.
  destruct (create_data_fn_missing_num_id_is_deferred
              (Faults.world Faults.csv_without_num_id (Ok tt) (Ok tt)
                            (fun _ _ => Ok tt))
              "/data" (Some "/data") ["n01/a.JPEG"] initial_proc eq_refl)
    as [_ Hkey].
  unfold run. now rewrite (Hkey _ eq_refl).
Defined.

(* ------------------------------------------------------------------ *)
(** ** Dataset adapter: bounds and alignment *)

(** X6: A position beyond the image list or beyond the label list raises
    [IndexError] in every world, so before any file is opened.  The
    constructor does not compare the two lengths and [__len__] counts the
    images only, so with fewer labels than images some positions below
    [__len__] raise as well. *)
Theorem getitem_out_of_range (w : World) (self : ImageNet) (idx : nat) :
  List.length (img_locs self) <= idx \/ List.length (labels self) <= idx ->
  __getitem__ w self idx = Err IndexError.
Proof.
  intros Hout. unfold __getitem__, getitem.
  destruct (nth_error (img_locs self) idx) as [file|] eqn:Hloc;
    [|reflexivity].
  simpl.
  destruct (nth_error (labels self) idx) as [label|] eqn:Hlab;
    [|reflexivity].
  exfalso.
  assert (idx < List.length (img_locs self))
    by (apply nth_error_Some; congruence).
  assert (idx < List.length (labels self))
    by (apply nth_error_Some; congruence).
  lia.
Qed.

Lemma getitem_out_of_range_witness :
  1 < __len__ Faults.short_labels /\
  __getitem__ (Demo.world (Some "true") "" 2 0) Faults.short_labels 1 =
    Err IndexError.
Proof.
  split; [unfold __len__; simpl; lia|].
  apply getitem_out_of_range. right. simpl. lia.
Defined.

(** X7: [__getitem__] returns a pair exactly when the position has a file
    and a label, the file reads and decodes, and the transform, if any,
    succeeds; the pair is then the transformed image of that very file
    together with the label stored at the same position. *)
Theorem getitem_returns_aligned_pair (w : World) (self : ImageNet)
    (idx : nat) (x : sample) (label : Z) :
  __getitem__ w self idx = Ok (x, label) <->
  exists im_file im_rgb,
    nth_error (img_locs self) idx = Some im_file /\
    nth_error (labels self) idx = Some label /\
    read_decode w im_file = Ok im_rgb /\
    match transform self with
    | Some tf => exists t, tf im_rgb = Ok t /\ x = TensorOf t
    | None => x = PILImage im_rgb
    end.
Proof.
  unfold __getitem__, getitem, read_decode. split.
  - destruct (nth_error (img_locs self) idx) as [file|]; [|discriminate].
    destruct (nth_error (labels self) idx) as [l|]; [|discriminate].
    simpl.
    destruct (open_rb w file) as [f|] eqn:Hopen; [|discriminate]. simpl.
    destruct (Image_open w f) as [im|] eqn:Himg; [|discriminate]. simpl.
    destruct (convert_RGB w im) as [rgb|] eqn:Hrgb; [|discriminate]. simpl.
    intros Hret. exists file, rgb.
    split; [reflexivity|].
    assert (Hdec : rbind (open_rb w file) (fun f =>
                     rbind (Image_open w f) (fun im_rgb =>
                       convert_RGB w im_rgb)) = Ok rgb).
    { rewrite Hopen. simpl. rewrite Himg. simpl. exact Hrgb. }
    destruct (transform self) as [tf|].
    + destruct (tf rgb) as [t|] eqn:Htf; simpl in Hret; [|discriminate].
      injection Hret as <- <-.
      split; [reflexivity|]. split; [exact Hdec|].
      exists t. split; reflexivity.
    + injection Hret as <- <-. repeat split. exact Hdec.
  - intros (file & rgb & -> & -> & Hdec & Htf). simpl.
    destruct (open_rb w file) as [f|]; [|discriminate]. simpl in *.
    destruct (Image_open w f) as [im|]; [|discriminate]. simpl in *.
    rewrite Hdec. simpl.
    destruct (transform self) as [tf|].
    + destruct Htf as (t & Ht & ->). now rewrite Ht.
    + now subst x.
Qed.

(* ------------------------------------------------------------------ *)
(** ** Batch fetching *)

Lemma mapR_is_ok {A B} (f : A -> result B) (l : list A) :
  is_ok (mapR f l) = forallb (fun a => is_ok (f a)) l.
Proof.
  induction l as [|a l IH]; simpl; [reflexivity|].
  destruct (f a); simpl; [|reflexivity].
  rewrite <- IH. now destruct (mapR f l).
Qed.

Lemma mapR_Ok_nth {A B} (f : A -> result B) (l : list A) (bs : list B) :
  mapR f l = Ok bs ->
  List.length bs = List.length l /\
  forall j a, nth_error l j = Some a ->
    exists b, nth_error bs j = Some b /\ f a = Ok b.
Proof.
  revert bs. induction l as [|x l IH]; simpl; intros bs Hmap.
  - injection Hmap as <-. split; [reflexivity|].
    intros [|j] a; discriminate.
  - destruct (f x) as [b|] eqn:Hfx; [|discriminate]. simpl in Hmap.
    destruct (mapR f l) as [bs'|]; [|discriminate]. simpl in Hmap.
    injection Hmap as <-.
    destruct (IH bs' eq_refl) as [Hlen Hnth].
    split; [simpl; now rewrite Hlen|].
    intros [|j] a Hj; simpl in *.
    + injection Hj as <-. now exists b.
    + now apply Hnth.
Qed.

Lemma mapR_first_error {A B} (f : A -> result B) (good rest : list A)
    (bad : A) (e : exn) :
  (forall a, In a good -> is_ok (f a) = true) ->
  f bad = Err e ->
  mapR f (good ++ bad :: rest) = Err e.
Proof.
  intros Hgood Hbad. induction good as [|a good IH]; simpl.
  - now rewrite Hbad.
  - pose proof (Hgood a (or_introl eq_refl)) as Ha.
    destruct (f a); [|discriminate]. simpl.
    rewrite IH; [reflexivity|]. intros x Hx. apply Hgood. now right.
Qed.

Lemma load_batch_Ok_iff (w : World) (ds : ImageNet) (idxs : list nat)
    (data : list (sample * Z)) :
  load_batch w ds idxs = Ok data <->
  mapR (__getitem__ w ds) idxs = Ok data /\ collatable data = true.
Proof.
  unfold load_batch, default_collate.
  destruct (mapR (__getitem__ w ds) idxs) as [items|e]; simpl.
  - destruct items as [|it items].
    + split; [discriminate|]. intros [Heq Hc]. injection Heq as <-.
      discriminate Hc.
    + destruct (collatable (it :: items)) eqn:Hc.
      * split; [intros Heq; injection Heq as <-; auto | tauto].
      * split; [discriminate|]. intros [Heq Hc']. injection Heq as <-.
        congruence.
  - split; [discriminate | intros [Heq _]; discriminate].
Qed.

(** X8: A batch is all or nothing.  Fetching returns a batch exactly when
    every position of the group can be read and the samples can be
    stacked, that is when all of them are tensors of one shape; the batch
    then holds one sample per position, in the order of the positions; and
    fetching never changes the process state. *)
Theorem fetch_all_or_nothing (w : World) (ds : ImageNet)
    (idxs : list nat) (st : proc) :
  snd (fetch w ds idxs st) = st /\
  (forall data,
     fst (fetch w ds idxs st) = Ok data <->
     mapR (__getitem__ w ds) idxs = Ok data /\ collatable data = true) /\
  (forall data, fst (fetch w ds idxs st) = Ok data ->
     List.length data = List.length idxs /\
     forall j i, nth_error idxs j = Some i ->
       exists x, nth_error data j = Some x /\ __getitem__ w ds i = Ok x).
Proof.
  unfold fetch, lift. simpl. split; [reflexivity|].
  split; [intros data; apply load_batch_Ok_iff|].
  intros data Hload. apply load_batch_Ok_iff in Hload as [Hmap _].
  now apply mapR_Ok_nth.
Qed.

Example fetch_rejects_images :
  __getitem__ (Demo.world (Some "true") "" 2 0) Faults.untransformed 0 =
    Ok (PILImage [22%Z], 0%Z) /\
  is_ok (fst (fetch (Demo.world (Some "true") "" 2 0) Faults.untransformed
                    [0] initial_proc)) = false.
Proof. split; reflexivity. Qed.

(** X9: The exception of a failed batch is the one of the first position, in
    sampler order, that cannot be read; what follows it in the group is not
    consulted. *)
Theorem fetch_raises_first_error (w : World) (ds : ImageNet)
    (good rest : list nat) (bad : nat) (e : exn) (st : proc) :
  (forall i, In i good -> is_ok (__getitem__ w ds i) = true) ->
  __getitem__ w ds bad = Err e ->
  fetch w ds (good ++ bad :: rest) st = (Err e, st).
Proof.
  intros Hgood Hbad. unfold fetch, lift, load_batch.
  now rewrite (mapR_first_error _ good rest bad e Hgood Hbad).
Qed.

Lemma fetch_raises_first_error_witness :
  fetch (Demo.world (Some "true") "/data/train/n02/b.JPEG" 2 0)
        Demo.dataset ([0] ++ 1 :: [7]) initial_proc =
  (Err (IOError "/data/train/n02/b.JPEG"), initial_proc).
Proof.
  apply (fetch_raises_first_error
           (Demo.world (Some "true") "/data/train/n02/b.JPEG" 2 0)
           Demo.dataset [0] [7] 1 (IOError "/data/train/n02/b.JPEG")
           initial_proc).
  - intros i [<-|[]]. reflexivity.
  - reflexivity.
Defined.

(* ------------------------------------------------------------------ *)
(** ** The training loop *)

Lemma steps_app (tr new : list event) :
  steps (tr ++ new) = steps tr + steps new.
Proof. unfold steps. now rewrite filter_app, length_app. Qed.

Lemma forwarded_app (tr new : list event) :
  forwarded (tr ++ new) = forwarded tr ++ forwarded new.
Proof. unfold forwarded. apply flat_map_app. Qed.

Lemma iteration_events_steps (e i : nat) (data : list (sample * Z)) :
  steps (iteration_events e i data) = 1 /\
  forwarded (iteration_events e i data) = [data].
Proof.
  unfold iteration_events. destruct (i mod 100 =? 0); split; reflexivity.
Qed.

Lemma is_ok_unit (r : result unit) : is_ok r = true -> r = Ok tt.
Proof. destruct r as [[]|]; [reflexivity | discriminate]. Qed.

Lemma iteration_ok_intro (w : World) (e i : nat) (data : list (sample * Z)) :
  to_cuda w data = Ok tt ->
  model_forward w e i data = Ok tt ->
  cross_entropy w e i data = Ok tt ->
  loss_backward w e i = Ok tt ->
  hvd_allreduce w e i = Ok tt ->
  loss_item w e i = Ok tt ->
  iteration_ok w e i data = true.
Proof.
  intros H1 H2 H3 H4 H5 H6. unfold iteration_ok.
  rewrite H1, H2, H3, H4, H5, H6. now destruct (i mod 100 =? 0).
Qed.

(** One iteration whose batch can be fetched and in which nothing
    raises. *)
Lemma train_loop_iteration (w : World) (ds : ImageNet) (e i : nat)
    (b : list nat) (rest : list (list nat)) (data : list (sample * Z))
    (st : proc) :
  load_batch w ds b = Ok data ->
  iteration_ok w e i data = true ->
  train_loop w ds e i (b :: rest) st =
  train_loop w ds e (S i) rest
    (mkProc (trace st ++ iteration_events e i data) (default_generator st)).
Proof.
  intros Hfetch Hok. cbn [train_loop].
  unfold iteration_ok in Hok.
  repeat (apply andb_prop in Hok as [Hok ?]).
  unfold fetch, optimizer_step, iteration_events.
  destruct (i mod 100 =? 0);
    cbv [bind lift emit ret]; rewrite Hfetch; simpl;
    repeat match goal with
           | H : is_ok ?r = true |- _ =>
               rewrite (is_ok_unit r H); clear H; simpl
           end;
    repeat rewrite <- app_assoc; reflexivity.
Qed.

(** The loop runs through a prefix of batches that can all be fetched and
    processed, one optimizer step and one forward pass per batch. *)
Lemma train_loop_prefix (w : World) (ds : ImageNet) (e : nat)
    (good tail : list (list nat)) :
  forall (datas : list (list (sample * Z))) (i : nat) (st : proc),
    mapR (load_batch w ds) good = Ok datas ->
    (forall j data, nth_error datas j = Some data ->
                    iteration_ok w e (i + j) data = true) ->
    exists st1,
      train_loop w ds e i (good ++ tail) st =
        train_loop w ds e (i + List.length good) tail st1 /\
      steps (trace st1) = steps (trace st) + List.length good /\
      forwarded (trace st1) = forwarded (trace st) ++ datas.
Proof.
  induction good as [|b good IH]; intros datas i st Hfetch Hok.
  - simpl in Hfetch. injection Hfetch as <-. exists st.
    rewrite Nat.add_0_r, app_nil_r. simpl. auto.
  - simpl in Hfetch.
    destruct (load_batch w ds b) as [d|] eqn:Hb; [|discriminate].
    simpl in Hfetch.
    destruct (mapR (load_batch w ds) good) as [ds'|] eqn:Hgood;
      [|discriminate].
    simpl in Hfetch. injection Hfetch as <-.
    assert (Hi : iteration_ok w e i d = true).
    { rewrite <- (Nat.add_0_r i). now apply Hok. }
    destruct (IH ds' (S i)
                (mkProc (trace st ++ iteration_events e i d)
                        (default_generator st)) eq_refl)
      as (st1 & Hrun & Hsteps & Hfw).
    { intros j data Hj. replace (S i + j) with (i + S j) by lia.
      now apply Hok. }
    exists st1. cbn [trace default_generator List.length] in *.
    rewrite <- app_comm_cons.
    rewrite (train_loop_iteration w ds e i b (good ++ tail) d st Hb Hi).
    rewrite Hrun, Hsteps, Hfw, steps_app, forwarded_app.
    destruct (iteration_events_steps e i d) as [-> ->].
    replace (S i + List.length good) with (i + S (List.length good)) by lia.
    rewrite <- app_assoc.
    split; [reflexivity|]. split; [lia | reflexivity].
Qed.

(** X10: When every batch can be fetched and stacked, and in every
    iteration the transfer to the device, the forward pass, the loss, the
    backward pass, the collective of the step and the reading of the loss
    for the progress line succeed, the loop returns after exactly one
    optimizer step per batch, and the model has seen exactly the fetched
    batches in loader order. *)
Theorem train_loop_one_step_per_batch (w : World) (ds : ImageNet)
    (e i : nat) (bs : list (list nat))
    (datas : list (list (sample * Z))) (st : proc) :
  mapR (load_batch w ds) bs = Ok datas ->
  (forall j data, nth_error datas j = Some data ->
                  iteration_ok w e (i + j) data = true) ->
  exists st',
    train_loop w ds e i bs st = (Ok tt, st') /\
    steps (trace st') = steps (trace st) + List.length bs /\
    forwarded (trace st') = forwarded (trace st) ++ datas.
Proof.
  intros Hfetch Hok.
  destruct (train_loop_prefix w ds e bs [] datas i st Hfetch Hok)
    as (st1 & Hrun & Hrest).
  exists st1. rewrite app_nil_r in Hrun. rewrite Hrun. simpl. auto.
Qed.

Lemma train_loop_one_step_per_batch_witness :
  exists st',
    train_loop (Demo.world (Some "true") "" 2 0) Demo.dataset 0 0
               [[0; 1]; [1]] initial_proc = (Ok tt, st') /\
    steps (trace st') = 2 /\
    forwarded (trace st') =
      [[(TensorOf [22%Z], 0%Z); (TensorOf [22%Z], 1%Z)];
       [(TensorOf [22%Z], 1%Z)]].
Proof.
  destruct (train_loop_one_step_per_batch
              (Demo.world (Some "true") "" 2 0) Demo.dataset 0 0
              [[0; 1]; [1]] _ initial_proc eq_refl)
    as (st' & Hrun & Hsteps & Hfw).
  - intros j data _. now apply iteration_ok_intro.
  - exists st'. auto.
Defined.

(** X11: There is no skip-and-continue: when the batches before it went
    through without an exception and a batch cannot be fetched, the loop
    ends in the exception of that batch after exactly as many optimizer
    steps as there were batches before it, and the model has seen those
    batches only. *)
Theorem train_loop_stops_at_unreadable_batch (w : World) (ds : ImageNet)
    (e i : nat) (good rest : list (list nat)) (bad : list nat)
    (datas : list (list (sample * Z))) (err : exn) (st : proc) :
  mapR (load_batch w ds) good = Ok datas ->
  (forall j data, nth_error datas j = Some data ->
                  iteration_ok w e (i + j) data = true) ->
  load_batch w ds bad = Err err ->
  exists st',
    train_loop w ds e i (good ++ bad :: rest) st = (Err err, st') /\
    steps (trace st') = steps (trace st) + List.length good /\
    forwarded (trace st') = forwarded (trace st) ++ datas.
Proof.
  intros Hgood Hok Hbad.
  destruct (train_loop_prefix w ds e good (bad :: rest) datas i st Hgood Hok)
    as (st1 & Hrun & Hsteps & Hfw).
  exists st1. rewrite Hrun. cbn [train_loop].
  unfold fetch. cbv [bind lift]. rewrite Hbad. auto.
Qed.

Lemma train_loop_stops_at_unreadable_batch_witness :
  exists st',
    train_loop (Demo.world (Some "true") "/data/train/n02/b.JPEG" 2 0)
               Demo.dataset 0 0 ([[0]] ++ [0; 1] :: [[0]]) initial_proc =
      (Err (IOError "/data/train/n02/b.JPEG"), st') /\
    steps (trace st') = 1.
Proof.
  destruct (train_loop_stops_at_unreadable_batch
              (Demo.world (Some "true") "/data/train/n02/b.JPEG" 2 0)
              Demo.dataset 0 0 [[0]] [[0]] [0; 1] _
              (IOError "/data/train/n02/b.JPEG") initial_proc eq_refl)
    as (st' & Hrun & Hsteps & _).
  - intros j data _. now apply iteration_ok_intro.
  - reflexivity.
  - exists st'. auto.
Defined.

(** X12: A collective that fails inside [optimizer.step()] ends the loop
    with its exception.  If the batches before went through without an
    exception and this batch was fetched, moved to the device and run
    forward and backward, the step was entered, which makes one step more
    than the batches before it; that call is the last event, so nothing is
    logged for the step, and no later batch runs. *)
Theorem train_loop_stops_at_failed_collective (w : World) (ds : ImageNet)
    (e i : nat) (good rest : list (list nat)) (b : list nat)
    (datas : list (list (sample * Z))) (d : list (sample * Z))
    (err : exn) (st : proc) :
  mapR (load_batch w ds) good = Ok datas ->
  (forall j data, nth_error datas j = Some data ->
                  iteration_ok w e (i + j) data = true) ->
  load_batch w ds b = Ok d ->
  to_cuda w d = Ok tt ->
  model_forward w e (i + List.length good) d = Ok tt ->
  cross_entropy w e (i + List.length good) d = Ok tt ->
  loss_backward w e (i + List.length good) = Ok tt ->
  hvd_allreduce w e (i + List.length good) = Err err ->
  exists st',
    train_loop w ds e i (good ++ b :: rest) st = (Err err, st') /\
    steps (trace st') = steps (trace st) + List.length good + 1 /\
    forwarded (trace st') = forwarded (trace st) ++ datas ++ [d] /\
    exists before, trace st' = before ++ [OptimizerStep].
Proof.
  intros Hgood Hok Hb Hcuda Hfwd Hloss Hback Hfail.
  destruct (train_loop_prefix w ds e good (b :: rest) datas i st Hgood Hok)
    as (st1 & Hrun & Hsteps & Hfw).
  eexists. rewrite Hrun. cbn [train_loop].
  unfold fetch, optimizer_step. cbv [bind lift emit ret].
  rewrite Hb. simpl. rewrite Hcuda. simpl. rewrite Hfwd. simpl.
  rewrite Hloss. simpl. rewrite Hback. simpl. rewrite Hfail. simpl.
  split; [reflexivity|].
  cbn [trace].
  repeat rewrite steps_app. repeat rewrite forwarded_app.
  rewrite Hsteps, Hfw. simpl.
  split; [unfold steps; simpl; lia|].
  split; [now rewrite !app_nil_r, <- !app_assoc|].
  eexists. reflexivity.
Qed.

Lemma train_loop_stops_at_failed_collective_witness :
  exists st',
    train_loop
      (Faults.world Demo.csv (Ok tt) (Ok tt)
         (fun _ i => if i =? 1 then Err CollectiveError else Ok tt))
      Demo.dataset 0 0 ([[0]] ++ [1] :: [[0]]) initial_proc =
      (Err CollectiveError, st') /\
    steps (trace st') = 2.
Proof.
  destruct (train_loop_stops_at_failed_collective
              (Faults.world Demo.csv (Ok tt) (Ok tt)
                 (fun _ i => if i =? 1 then Err CollectiveError else Ok tt))
              Demo.dataset 0 0 [[0]] [[0]] [1]
              [[(TensorOf [22%Z], 0%Z)]] [(TensorOf [22%Z], 1%Z)]
              CollectiveError initial_proc eq_refl)
    as (st' & Hrun & Hsteps & _); try reflexivity.
  - intros [|j] data Hj; [|destruct j; discriminate Hj].
    now apply iteration_ok_intro.
  - exists st'. auto.
Defined.

(* ------------------------------------------------------------------ *)
(** ** Master election *)

(** X13: [_is_master] never changes the process state.  In a run that is
    not distributed it answers true with its default argument, and raises
    [NameError] when called with [True], since Horovod was not imported.
    In a distributed run it answers whether this replica has rank 0 once
    Horovod is initialised, and before that it raises [ValueError] from
    [hvd.rank()]. *)
Theorem is_master_answers_and_raises (w : World) (st : proc) :
  (forall flag, snd (_is_master w flag st) = st) /\
  _is_master w false st = (Ok true, st) /\
  (_DISTRIBUTED w = false ->
   _is_master w (_DISTRIBUTED w) st = (Ok true, st) /\
   _is_master w true st = (Err (NameError "hvd"), st)) /\
  (_DISTRIBUTED w = true -> hvd_initialized w st = true ->
   _is_master w true st = (Ok (hvd_rank w =? 0), st)) /\
  (_DISTRIBUTED w = true -> hvd_initialized w st = false ->
   exists msg, _is_master w true st = (Err (ValueError msg), st)).
Proof.
  unfold _is_master, hvd, hvd__rank, hvd_call.
  split; [|split; [reflexivity|split; [|split]]].
  - intros [|]; [|reflexivity]. cbv [bind ret raise].
    destruct (_DISTRIBUTED w); simpl; [|reflexivity].
    destruct (hvd_initialized w st); simpl; [|reflexivity].
    now destruct (hvd_rank w =? 0).
  - intros Hd. rewrite Hd. cbv [bind ret raise]. split; reflexivity.
  - intros Hd Hinit. rewrite Hd. cbv [bind ret]. rewrite Hinit. simpl.
    now destruct (hvd_rank w =? 0).
  - intros Hd Hinit. rewrite Hd. cbv [bind ret]. rewrite Hinit.
    eexists. reflexivity.
Qed.

Lemma is_master_answers_and_raises_witness :
  _is_master (Demo.world None "" 1 0) true initial_proc =
    (Err (NameError "hvd"), initial_proc) /\
  _is_master (Demo.world (Some "true") "" 2 0) true (mkProc [HvdInit] None) =
    (Ok true, mkProc [HvdInit] None) /\
  exists msg,
    _is_master (Demo.world (Some "true") "" 2 1) true initial_proc =
    (Err (ValueError msg), initial_proc).
Proof.
  split; [|split].
  - apply (is_master_answers_and_raises (Demo.world None "" 1 0)
             initial_proc).
    reflexivity.
  - apply (is_master_answers_and_raises (Demo.world (Some "true") "" 2 0)
             (mkProc [HvdInit] None)); reflexivity.
  - apply (is_master_answers_and_raises (Demo.world (Some "true") "" 2 1)
             initial_proc); reflexivity.
Defined.

(* ------------------------------------------------------------------ *)
(** ** Fatal failures in [main] *)

(** X14: When [hvd.init()] fails, [main] ends with that exception right there:
    nothing was seeded, no manifest was read and no collective was
    called. *)
Theorem main_init_failure_is_fatal (w : World) (e : exn) (st : proc) :
  _DISTRIBUTED w = true ->
  hvd_init w = Err e ->
  main w st =
  (Err e, mkProc (trace st ++ [Log "Runnin Distributed"; HvdInit])
                 (default_generator st)).
Proof.
  intros Hd Hinit. unfold main, hvd. rewrite Hd.
  cbv [bind ret emit lift]. rewrite Hinit. simpl.
  now rewrite <- app_assoc.
Qed.

Lemma main_init_failure_is_fatal_witness :
  run (main (Faults.world Demo.csv (Err InitError) (Ok tt)
                          (fun _ _ => Ok tt))) =
  (Err InitError, [Log "Runnin Distributed"; HvdInit]).
Proof.
  unfold run.
  rewrite (main_init_failure_is_fatal
             (Faults.world Demo.csv (Err InitError) (Ok tt)
                           (fun _ _ => Ok tt))
             InitError initial_proc eq_refl eq_refl).
  reflexivity.
Defined.

Section Aborts.

Variable Q : list event -> Prop.
Hypothesis unstarted_Q : forall tr, not_started tr -> Q tr.

Lemma aborts_after_quiet {A B} (m : M A) (k : A -> M B) :
  keeps not_started m ->
  (forall a, aborts Q (k a)) ->
  aborts Q (bind m k).
Proof.
  intros Hm Hk st Hst. unfold bind.
  specialize (Hm st Hst). destruct (m st) as [[a|e] st']; simpl in *.
  - now apply Hk.
  - split; [reflexivity | now apply unstarted_Q].
Qed.

Lemma aborts_at_failure {A B} (m : M A) (k : A -> M B) :
  keeps not_started m ->
  (forall st, is_ok (fst (m st)) = false) ->
  aborts Q (bind m k).
Proof.
  intros Hm Hfail st Hst. unfold bind.
  specialize (Hm st Hst). specialize (Hfail st).
  destruct (m st) as [[a|e] st']; simpl in *; [discriminate|].
  split; [reflexivity | now apply unstarted_Q].
Qed.

Lemma aborts_hvd {B} (w : World) (k : World -> M B) :
  aborts Q (k w) -> aborts Q (bind (hvd w) k).
Proof.
  intros Hk st Hst. unfold bind, hvd.
  destruct (_DISTRIBUTED w); simpl.
  - now apply Hk.
  - split; [reflexivity | now apply unstarted_Q].
Qed.

End Aborts.

Lemma not_started_no_steps (tr : list event) :
  not_started tr -> steps tr = 0.
Proof.
  intros Htr. unfold steps. induction tr as [|e tr IH]; [reflexivity|].
  simpl. destruct (Htr e (or_introl eq_refl)) as [_ ->].
  apply IH. intros x Hx. apply Htr. now right.
Qed.

Lemma not_started_no_broadcasts (tr : list event) :
  not_started tr -> broadcasts tr = 0.
Proof.
  intros Htr. unfold broadcasts.
  now rewrite (proj1 (not_started_counts tr Htr)).
Qed.

(** X15: When the broadcast of the parameters fails, [main] ends without a
    single optimizer step: training never starts from parameters that were
    not synchronised.  The broadcast was called at most once. *)
Theorem main_broadcast_failure_runs_no_step (w : World) (e : exn) :
  hvd_broadcast w = Err e ->
  is_ok (fst (run (main w))) = false /\
  steps (snd (run (main w))) = 0 /\
  broadcasts (snd (run (main w))) <= 1.
Proof.
  intros Hfail.
  set (Q := fun tr => steps tr = 0 /\ broadcasts tr <= 1).
  assert (HQ : forall tr, not_started tr -> Q tr).
  { intros tr Htr. split.
    - now apply not_started_no_steps.
    - rewrite (not_started_no_broadcasts tr Htr). lia. }
  assert (Hmain : aborts Q (main w)).
  { unfold main.
    apply aborts_after_quiet; [exact HQ | apply main_init_quiet | intros _].
    apply aborts_after_quiet; [exact HQ | keeps_quiet | intros _].
    apply aborts_after_quiet; [exact HQ | apply create_data_fn_quiet |].
    intros [[[train_X train_y] valid_X] valid_y].
    apply aborts_after_quiet; [exact HQ | keeps_quiet | intros _].
    apply aborts_after_quiet; [exact HQ | apply ImageNet_init_quiet |].
    intros ds.
    apply aborts_after_quiet; [exact HQ | keeps_quiet | intros h1].
    apply aborts_after_quiet; [exact HQ | apply keeps_hvd_call | intros size].
    apply aborts_after_quiet; [exact HQ | keeps_quiet | intros h2].
    apply aborts_after_quiet; [exact HQ | apply keeps_hvd_call | intros rank].
    apply aborts_after_quiet; [exact HQ | keeps_quiet | intros _].
    apply aborts_after_quiet; [exact HQ | keeps_quiet | intros _].
    apply aborts_hvd; [exact HQ|].
    intros st Hst. cbv [bind emit lift]. rewrite Hfail. simpl.
    split; [reflexivity|]. unfold Q, broadcasts.
    rewrite steps_app, filter_app, length_app.
    rewrite (not_started_no_steps _ Hst).
    fold (broadcasts (trace st)).
    rewrite (not_started_no_broadcasts _ Hst). simpl. split; [reflexivity | lia]. }
  unfold run. specialize (Hmain initial_proc (fun x H => match H with end)).
  destruct (main w initial_proc) as [r st]. simpl in *.
  destruct Hmain as [Hr [Hs Hb]]. auto.
Qed.

Lemma main_broadcast_failure_runs_no_step_witness :
  fst (run (main (Faults.world Demo.csv (Ok tt) (Err CollectiveError)
                               (fun _ _ => Ok tt)))) =
    Err CollectiveError /\
  steps (snd (run (main (Faults.world Demo.csv (Ok tt)
                                      (Err CollectiveError)
                                      (fun _ _ => Ok tt))))) = 0.
Proof.
  split; [vm_compute; reflexivity|].
  apply (main_broadcast_failure_runs_no_step
           (Faults.world Demo.csv (Ok tt) (Err CollectiveError)
                         (fun _ _ => Ok tt))
           CollectiveError eq_refl).
Defined.

Lemma create_data_fn_needs_validation (w : World)
    (train_path test_path : option string) (e : exn) (st : proc) :
  _load_validation w test_path = Err e ->
  is_ok (fst (_create_data_fn w train_path test_path st)) = false.
Proof.
  intros Hval. unfold _create_data_fn. cbv [bind lift emit ret].
  destruct (_load_training w train_path); simpl; [|reflexivity].
  rewrite Hval. reflexivity.
Qed.

(** X16: The validation manifest must load for a run to get anywhere, although
    its contents are never used: when it cannot be loaded, [main] raises
    before the sampler is built, the parameters are broadcast or any step
    is taken. *)
Theorem main_needs_validation_manifest (w : World) (e : exn) :
  _load_validation w (getenv w "AZ_BATCHAI_INPUT_TEST") = Err e ->
  is_ok (fst (run (main w))) = false /\
  not_started (snd (run (main w))).
Proof.
  intros Hval.
  assert (Hmain : aborts not_started (main w)).
  { unfold main.
    apply aborts_after_quiet; [auto | apply main_init_quiet | intros _].
    apply aborts_after_quiet; [auto | keeps_quiet | intros _].
    apply aborts_at_failure; [auto | apply create_data_fn_quiet |].
    intros st. eapply create_data_fn_needs_validation. exact Hval. }
  unfold run. specialize (Hmain initial_proc (fun x H => match H with end)).
  destruct (main w initial_proc) as [r st]. exact Hmain.
Qed.

Lemma main_needs_validation_manifest_witness :
  run (main (Faults.world Faults.csv_without_validation (Ok tt) (Ok tt)
                          (fun _ _ => Ok tt))) =
    (Err (IOError "/data/validation.csv"),
     [Log "Runnin Distributed"; HvdInit; ManualSeed 42; CudaSetDevice 0;
      CudaManualSeed 42; Log "PyTorch version";
      Log "Reading training data info";
      Log "Reading validation data info"]) /\
  not_started
    (snd (run (main (Faults.world Faults.csv_without_validation (Ok tt)
                                  (Ok tt) (fun _ _ => Ok tt))))).
Proof.
  split; [vm_compute; reflexivity|].
  apply (main_needs_validation_manifest
           (Faults.world Faults.csv_without_validation (Ok tt) (Ok tt)
                         (fun _ _ => Ok tt))
           (IOError "/data/validation.csv") eq_refl).
Defined.
